(** * GPS / IP location assistant: the IP resolver and the location orchestrator

    A shallow embedding of the TypeScript sources
    - [services/ipService.ts] (the three-provider version with
      [fetchWithTimeout] and [fetchIpInfo]), and
    - [App.tsx] (the [App] component: [loadLocationData], the [gpsData]
      effect and [resolveAddressWithGemini]),
    followed by the properties proved about them.

    JavaScript values are kept as the program sees them at run time: a JSON
    payload is untyped ([data] has type [any]), so a field of the returned
    record may hold any value, [undefined] included.  Numbers are IEEE 754
    doubles (primitive floats), whose [eqb] is JavaScript's [===] on numbers:
    [NaN] differs from itself and [+0] equals [-0]. *)

From Stdlib Require Import Floats.PrimFloat.
From Stdlib Require Import NArith ZArith Lia.
From stdpp Require Import base option list strings gmap.

Local Open Scope string_scope.
Local Set Warnings "-register-all".
Local Set Warnings "-inexact-float".

(* ===================================================================== *)
(** * JavaScript values *)
(* ===================================================================== *)

Module Js.

(** The values a parsed JSON payload and its property reads can produce.
    An object is a finite map from property names to values. *)
Inductive value : Type :=
| Undefined
| Null
| Bool (b : bool)
| Num (x : float)
| Str (s : string)
| Arr (items : list value)
| Obj (props : gmap string value).

(** What a [throw] carries.  [Error m] is [new Error(m)]. *)
Inductive exn : Type :=
| Error (message : string)
| TypeError
| SyntaxError
| NetworkError
| AbortError.

(** Completion of an expression or of an awaited promise. *)
Inductive completion (A : Type) : Type :=
| Normal (a : A)
| Throw (e : exn).
Arguments Normal {A} a.
Arguments Throw {A} e.

Definition is_nan (x : float) : bool := negb (PrimFloat.eqb x x).

(** ToBoolean. *)
Definition truthy (v : value) : bool :=
  match v with
  | Undefined | Null => false
  | Bool b => b
  | Num x => negb (PrimFloat.eqb x 0%float || is_nan x)
  | Str s => negb (String.eqb s "")
  | Arr _ | Obj _ => true
  end.

(** [a || b]. *)
Definition or (a b : value) : value := if truthy a then a else b.

(** [v.key] for a property name that no prototype defines (the payload
    attribute names read by the resolver are of that kind): reading a
    property of [null] or [undefined] throws a TypeError, an object gives
    its own property or [undefined], any other value gives [undefined]. *)
Definition get (v : value) (key : string) : completion value :=
  match v with
  | Undefined | Null => Throw TypeError
  | Obj props => Normal (default Undefined (props !! key))
  | _ => Normal Undefined
  end.

(** *** [String.prototype.trim]

    Strings are kept as their UTF-8 bytes.  [trim] removes every leading
    and trailing WhiteSpace or LineTerminator code point: TAB, LF, VT, FF,
    CR, SP, U+00A0, U+1680, U+2000 to U+200A, U+2028, U+2029, U+202F,
    U+205F, U+3000 and U+FEFF, listed here by their encodings. *)
Definition white_space : list (list N) :=
  [ [9]; [10]; [11]; [12]; [13]; [32]; [194; 160]; [225; 154; 128];
    [226; 128; 128]; [226; 128; 129]; [226; 128; 130]; [226; 128; 131];
    [226; 128; 132]; [226; 128; 133]; [226; 128; 134]; [226; 128; 135];
    [226; 128; 136]; [226; 128; 137]; [226; 128; 138]; [226; 128; 168];
    [226; 128; 169]; [226; 128; 175]; [226; 129; 159]; [227; 128; 128];
    [239; 187; 191] ]%N.

Fixpoint strip (w l : list N) : option (list N) :=
  match w, l with
  | [], _ => Some l
  | a :: w', b :: l' => if decide (a = b) then strip w' l' else None
  | _ :: _, [] => None
  end.

Definition strip_space (spaces : list (list N)) (l : list N)
  : option (list N) :=
  head (omap (fun w => strip w l) spaces).

Fixpoint trim_start (fuel : nat) (spaces : list (list N)) (l : list N)
  : list N :=
  match fuel with
  | O => l
  | S fuel' =>
      match strip_space spaces l with
      | Some l' => trim_start fuel' spaces l'
      | None => l
      end
  end.

Definition bytes_of (s : string) : list N :=
  Ascii.N_of_ascii <$> String.list_ascii_of_string s.

Definition string_of (l : list N) : string :=
  String.string_of_list_ascii (Ascii.ascii_of_N <$> l).

Definition trim (s : string) : string :=
  let l := bytes_of s in
  let front := trim_start (length l) white_space l in
  let back :=
    trim_start (length front) (reverse <$> white_space) (reverse front) in
  string_of (reverse back).

Definition is_string (v : value) : bool :=
  match v with Str _ => true | _ => false end.

Definition is_nullish (v : value) : bool :=
  match v with Undefined | Null => true | _ => false end.

End Js.

(* ===================================================================== *)
(** * services/ipService.ts *)
(* ===================================================================== *)

Module IpService.
Import Js.

(** ** The run-time environment of one call *)

(** The body of a response as [response.json()] finds it: it is read to
    its end in [after] ms and parses or not (a body that is not JSON
    rejects), or it never comes to an end. *)
Inductive Body : Type :=
| Reads (after : N) (c : completion value)
| Stalls.

(** What the resolver reads of a fetch [Response], which is there as soon
    as the headers are: the [ok] flag and the body. *)
Record Response : Type := mkResponse {
  ok : bool;
  json : Body
}.

(** Behaviour of the network for one request, in milliseconds after the
    request was issued: the response arrives, the request fails on its own
    (DNS, connection reset, ...), or nothing ever happens. *)
Inductive Network : Type :=
| Responds (after : N) (r : Response)
| Fails (after : N)
| Hangs.

(** The event loop as the service sees it: a clock, the table of pending
    timers (identifier and firing time) and the console. *)
Record Runtime : Type := mkRuntime {
  now : N;
  next_id : N;
  pending : list (N * N);
  console : list string
}.

(** What becomes of an awaited promise: it settles, normally or by a
    throw, or it stays pending for ever. *)
Inductive settling (A : Type) : Type :=
| Settled (c : completion A)
| Pending.
Arguments Settled {A} c.
Arguments Pending {A}.

(** A computation reads and updates the run-time state and settles or
    not.  With [Pending] comes the state in which the computation is left
    waiting. *)
Definition M (A : Type) : Type := Runtime -> settling A * Runtime.

Definition ret {A} (a : A) : M A := fun rt => (Settled (Normal a), rt).

Definition bind {A B} (m : M A) (k : A -> M B) : M B :=
  fun rt =>
    match m rt with
    | (Settled (Normal a), rt') => k a rt'
    | (Settled (Throw e), rt') => (Settled (Throw e), rt')
    | (Pending, rt') => (Pending, rt')
    end.

Definition throw {A} (e : exn) : M A := fun rt => (Settled (Throw e), rt).

(** [try { body } catch (e) { handler }]: nothing is caught from a body
    that stays pending. *)
Definition try_catch {A} (body : M A) (handler : exn -> M A) : M A :=
  fun rt =>
    match body rt with
    | (Settled (Normal a), rt') => (Settled (Normal a), rt')
    | (Settled (Throw e), rt') => handler e rt'
    | (Pending, rt') => (Pending, rt')
    end.

(** A completion that needs no run-time state. *)
Definition lift {A} (c : completion A) : M A := fun rt => (Settled c, rt).

#[global] Instance M_ret : MRet M := @ret.
#[global] Instance M_bind : MBind M := fun A B k m => bind m k.

(** The platform keeps the delay of a timer as a 32-bit signed integer:
    a delay of 2^31 ms or more overflows, and the timer fires at once. *)
Definition timer_delay (delay : N) : N :=
  if decide (delay < 2 ^ 31)%N then delay else 0%N.

(** [setTimeout(callback, delay)]: a new timer that fires [timer_delay
    delay] ms from now; the identifier is returned. *)
Definition setTimeout (delay : N) : M N :=
  fun rt =>
    (Settled (Normal (next_id rt)),
     mkRuntime (now rt) (N.succ (next_id rt))
               ((next_id rt, (now rt + timer_delay delay)%N) :: pending rt)
               (console rt)).

Definition cancel (id : N) (timers : list (N * N)) : list (N * N) :=
  filter (fun t => fst t <> id) timers.

(** [clearTimeout(id)]. *)
Definition clearTimeout (id : N) : M unit :=
  fun rt =>
    (Settled (Normal tt),
     mkRuntime (now rt) (next_id rt) (cancel id (pending rt)) (console rt)).

(** Time passes until [t]: every timer due by then has run its callback
    and left the table. *)
Definition advance (t : N) (rt : Runtime) : Runtime :=
  mkRuntime t (next_id rt)
            (filter (fun tm => (t < snd tm)%N) (pending rt))
            (console rt).

Definition firing_time (id : N) (rt : Runtime) : option N :=
  (snd ∘ snd) <$> list_find (fun tm => fst tm = id) (pending rt).

Definition console_warn (msg : string) : M unit :=
  fun rt =>
    (Settled (Normal tt),
     mkRuntime (now rt) (next_id rt) (pending rt)
               (console rt ++ [msg])%list).

(** [await response.json()]: time passes until the body has been read;
    no timer of the call bounds the reading. *)
Definition await_json (response : Response) : M value :=
  fun rt =>
    match json response with
    | Reads after c => (Settled c, advance (now rt + after) rt)
    | Stalls => (Pending, rt)
    end.

(** ** The service *)

Record RequestInitWithTimeout : Type := mkInit {
  timeout : option N
}.

Record IpInfo : Type := mkIpInfo {
  ip : value;
  city : value;
  region : value;
  country : value;
  org : value
}.

Section Service.

(** How the network answers a request to a given URL. *)
Variable net : string -> Network.

(** [await fetch(resource, { signal })], the signal being aborted by the
    callback of timer [id]: whichever comes first, the network's answer
    or the firing of the timer, settles the promise; an aborted request
    rejects with an AbortError.  When both fall on the same millisecond
    the timer is taken to run first.  A timer that is no longer pending
    has fired already. *)
Definition await_fetch (resource : string) (id : N) : M Response :=
  fun rt =>
    let abort_at := default (now rt) (firing_time id rt) in
    match net resource with
    | Responds after r =>
        if decide (now rt + after < abort_at)%N
        then (Settled (Normal r), advance (now rt + after) rt)
        else (Settled (Throw AbortError), advance abort_at rt)
    | Fails after =>
        if decide (now rt + after < abort_at)%N
        then (Settled (Throw NetworkError), advance (now rt + after) rt)
        else (Settled (Throw AbortError), advance abort_at rt)
    | Hangs => (Settled (Throw AbortError), advance abort_at rt)
    end.

Definition fetchWithTimeout
    (resource : string) (options : option RequestInitWithTimeout)
  : M Response :=
  let options := default (mkInit None) options in
  let timeout := default 5000%N (timeout options) in
  id ← setTimeout timeout;
  response ← await_fetch resource id;
  clearTimeout id;;
  mret response.

Definition fetchIpInfo : M IpInfo :=
  try_catch
    (response ← fetchWithTimeout "https://api.db-ip.com/v2/free/self"
                                 (Some (mkInit (Some 5000%N)));
     if negb (ok response)
     then throw (Error "Network response was not ok")
     else
       data ← await_json response;
       ipAddress ← lift (get data "ipAddress");
       city ← lift (get data "city");
       regionName ← lift (get data "regionName");
       countryName ← lift (get data "countryName");
       mret (mkIpInfo (or ipAddress (Str "未知"))
                      (or city (Str ""))
                      (or regionName (Str ""))
                      (or countryName (Str ""))
                      (Str "Unknown Provider")))
    (fun error =>
       console_warn "Primary IP fetch failed, trying fallback...";;
       try_catch
         (fallback ← fetchWithTimeout "https://ipapi.co/json/"
                                      (Some (mkInit (Some 5000%N)));
          if negb (ok fallback)
          then throw (Error "Fallback failed")
          else
            data ← await_json fallback;
            ip ← lift (get data "ip");
            city ← lift (get data "city");
            region ← lift (get data "region");
            country_name ← lift (get data "country_name");
            org ← lift (get data "org");
            org' ← (if truthy org then mret org
                    else lift (get data "asn"));
            mret (mkIpInfo ip city region country_name org'))
         (fun e =>
            try_catch
              (ipOnly ← fetchWithTimeout "https://api.ipify.org?format=json"
                                         (Some (mkInit (Some 3000%N)));
               ipData ← await_json ipOnly;
               ip ← lift (get ipData "ip");
               mret (mkIpInfo ip (Str "") (Str "") (Str "") (Str "")))
              (fun finalErr => throw (Error "无法获取网络信息")))).

End Service.

End IpService.

(* ===================================================================== *)
(** * App.tsx *)
(* ===================================================================== *)

(** What the browser's geolocation capability hands to the callbacks. *)
Module Geolocation.

Record Coordinates : Type := mkCoordinates {
  latitude : float;
  longitude : float;
  accuracy : float
}.

Record Position : Type := mkPosition {
  coords : Coordinates;
  timestamp : float
}.

Record PositionError : Type := mkPositionError {
  code : Z;
  message : string
}.

End Geolocation.

Module App.
Import Js.

(** ** types.ts *)

Record GpsCoordinates : Type := mkGps {
  latitude : float;
  longitude : float;
  accuracy : float;
  timestamp : float
}.

Record AddressInfo : Type := mkAddress {
  formattedAddress : string;
  poiName : option string
}.

Inductive LocationStatus : Type := IDLE | LOADING | SUCCESS | ERROR | DENIED.

(** The object held by the [lastResolvedCoords] ref. *)
Record Coords : Type := mkCoords {
  lat : float;
  lng : float
}.

(** ** The component

    The five state cells of [App] and its two refs. *)
Record Component : Type := mkComponent {
  ipData : option IpService.IpInfo;
  gpsData : option GpsCoordinates;
  addressData : option AddressInfo;
  status : LocationStatus;
  errorMsg : string;
  lastResolvedCoords : option Coords;
  isMounted : bool
}.

(** [useState] initial values and [useRef] initial contents. *)
Definition initial : Component :=
  mkComponent None None None IDLE "" None true.

(** What a handler does besides updating the refs: the state setters it
    calls, the asynchronous operations it starts and what it logs, in
    program order. *)
Inductive Op : Type :=
| SetIpData (data : IpService.IpInfo)
| SetGpsData (g : GpsCoordinates)
| SetAddressData (a : option AddressInfo)
| SetStatus (s : LocationStatus)
| SetErrorMsg (m : string)
| CallFetchIpInfo
| CallGetCurrentPosition (enableHighAccuracy : bool) (timeout maximumAge : N)
| CallGenerateContent (lat lng : float)
| ConsoleWarn (m : string)
| ConsoleError (m : string).

(** A handler runs on the component and yields the operations performed. *)
Definition M (A : Type) : Type := Component -> A * Component * list Op.

Definition ret {A} (a : A) : M A := fun c => (a, c, []).

Definition bind {A B} (m : M A) (k : A -> M B) : M B :=
  fun c =>
    let '(a, c1, ops1) := m c in
    let '(b, c2, ops2) := k a c1 in
    (b, c2, (ops1 ++ ops2)%list).

#[global] Instance M_ret : MRet M := @ret.
#[global] Instance M_bind : MBind M := fun A B k m => bind m k.

Definition gets {A} (f : Component -> A) : M A := fun c => (f c, c, []).

Definition perform (op : Op) : M unit := fun c => (tt, c, [op]).

Definition setIpData (d : IpService.IpInfo) : M unit :=
  fun c =>
    (tt,
     mkComponent (Some d) (gpsData c) (addressData c) (status c)
                 (errorMsg c) (lastResolvedCoords c) (isMounted c),
     [SetIpData d]).

Definition setGpsData (g : GpsCoordinates) : M unit :=
  fun c =>
    (tt,
     mkComponent (ipData c) (Some g) (addressData c) (status c)
                 (errorMsg c) (lastResolvedCoords c) (isMounted c),
     [SetGpsData g]).

Definition setAddressData (a : option AddressInfo) : M unit :=
  fun c =>
    (tt,
     mkComponent (ipData c) (gpsData c) a (status c)
                 (errorMsg c) (lastResolvedCoords c) (isMounted c),
     [SetAddressData a]).

Definition setStatus (st : LocationStatus) : M unit :=
  fun c =>
    (tt,
     mkComponent (ipData c) (gpsData c) (addressData c) st
                 (errorMsg c) (lastResolvedCoords c) (isMounted c),
     [SetStatus st]).

Definition setErrorMsg (m : string) : M unit :=
  fun c =>
    (tt,
     mkComponent (ipData c) (gpsData c) (addressData c) (status c)
                 m (lastResolvedCoords c) (isMounted c),
     [SetErrorMsg m]).

(** [lastResolvedCoords.current = v] *)
Definition set_lastResolvedCoords (v : option Coords) : M unit :=
  fun c =>
    (tt,
     mkComponent (ipData c) (gpsData c) (addressData c) (status c)
                 (errorMsg c) v (isMounted c),
     []).

(** [isMounted.current = b] *)
Definition set_isMounted (b : bool) : M unit :=
  fun c =>
    (tt,
     mkComponent (ipData c) (gpsData c) (addressData c) (status c)
                 (errorMsg c) (lastResolvedCoords c) b,
     []).

(** ** Handlers *)

(** The [isMounted] effect and its cleanup. *)
Definition mount : M unit := set_isMounted true.
Definition unmount : M unit := set_isMounted false.

(** [loadLocationData], up to the point where it has issued its two
    requests.  [geolocation] tells whether [navigator.geolocation] is
    there.  The completions of the requests are the handlers below. *)
Definition loadLocationData (geolocation : bool) : M unit :=
  mounted ← gets isMounted;
  if negb mounted then mret tt
  else
    setStatus LOADING;;
    setErrorMsg "";;
    setAddressData None;;
    set_lastResolvedCoords None;;
    perform CallFetchIpInfo;;
    if negb geolocation
    then
      setStatus ERROR;;
      setErrorMsg "您的浏览器不支持定位功能"
    else
      perform (CallGetCurrentPosition true 15000 0).

(** [fetchIpInfo().then(data => ...)] *)
Definition ipResolved (data : IpService.IpInfo) : M unit :=
  mounted ← gets isMounted;
  if (mounted : bool) then setIpData data else mret tt.

(** [.catch(e => ...)] *)
Definition ipRejected (e : exn) : M unit :=
  perform (ConsoleWarn "IP Fetch warning:").

(** The success callback of [getCurrentPosition]. *)
Definition positionSuccess (position : Geolocation.Position) : M unit :=
  mounted ← gets isMounted;
  if negb mounted then mret tt
  else
    let c := Geolocation.coords position in
    setGpsData (mkGps (Geolocation.latitude c) (Geolocation.longitude c)
                      (Geolocation.accuracy c)
                      (Geolocation.timestamp position)).

(** The error callback of [getCurrentPosition]. *)
Definition positionError (error : Geolocation.PositionError) : M unit :=
  mounted ← gets isMounted;
  if negb mounted then mret tt
  else
    setStatus DENIED;;
    let msg :=
      match Geolocation.code error with
      | 1%Z => "请允许浏览器获取您的位置权限"
      | 2%Z => "GPS 信号弱，无法获取位置"
      | 3%Z => "定位请求超时"
      | _ => Geolocation.message error
      end in
    setErrorMsg msg.

(** [resolveAddressWithGemini] up to its [await]: the guard is written
    first, then the grounding request is issued. *)
Definition resolveAddressWithGemini (lat lng : float) : M unit :=
  set_lastResolvedCoords (Some (mkCoords lat lng));;
  perform (CallGenerateContent lat lng).

(** [resolveAddressWithGemini] from its [await] on: the request either
    gave a response, whose [text] is a string or [undefined], or something
    in the [try] block threw. *)
Definition groundingSettled (outcome : completion (option string))
  : M unit :=
  match outcome with
  | Normal resultText =>
      mounted ← gets isMounted;
      if negb mounted then mret tt
      else
        match resultText with
        | Some text =>
            if truthy (Str text)
            then
              setAddressData
                (Some (mkAddress (trim text) (Some "Google Maps Data")));;
              setStatus SUCCESS
            else
              setStatus SUCCESS;;
              setAddressData (Some (mkAddress "无法解析详细地址" (Some "")))
        | None =>
            setStatus SUCCESS;;
            setAddressData (Some (mkAddress "无法解析详细地址" (Some "")))
        end
  | Throw e =>
      perform (ConsoleError "Gemini Maps Grounding error:");;
      mounted ← gets isMounted;
      if (mounted : bool)
      then
        setStatus SUCCESS;;
        setAddressData (Some (mkAddress "地址解析超时或失败" (Some "")))
      else mret tt
  end.

(** [a?.f === b] with [b] a number: [undefined] is not [===] to it. *)
Definition strict_eq (a : option float) (b : float) : bool :=
  match a with
  | Some x => PrimFloat.eqb x b
  | None => false
  end.

(** The guard of the [gpsData] effect. *)
Definition same_coords (current : option Coords) (g : GpsCoordinates)
  : bool :=
  strict_eq (lat <$> current) (latitude g)
  && strict_eq (lng <$> current) (longitude g).

(** The effect that depends on [gpsData]. *)
Definition gpsDataEffect : M unit :=
  g ← gets gpsData;
  match g with
  | Some gpsData =>
      current ← gets lastResolvedCoords;
      if same_coords current gpsData then mret tt
      else resolveAddressWithGemini (latitude gpsData) (longitude gpsData)
  | None => mret tt
  end.

(** ** The component in its environment *)

(** What can happen to the component. *)
Inductive Event : Type :=
| Mount
| Unmount
| Load (geolocation : bool)
| IpResolved (data : IpService.IpInfo)
| IpRejected (e : exn)
| PositionSuccess (position : Geolocation.Position)
| PositionError (error : Geolocation.PositionError)
| GroundingSettled (outcome : completion (option string)).

Definition handler (e : Event) : M unit :=
  match e with
  | Mount => mount
  | Unmount => unmount
  | Load geolocation => loadLocationData geolocation
  | IpResolved data => ipResolved data
  | IpRejected e => ipRejected e
  | PositionSuccess position => positionSuccess position
  | PositionError error => positionError error
  | GroundingSettled outcome => groundingSettled outcome
  end.

Definition is_SetGpsData (op : Op) : bool :=
  match op with SetGpsData _ => true | _ => false end.

(** One turn of the event loop: the handler runs, and when it has given
    [gpsData] a new object the following render runs the [gpsData]
    effect. *)
Definition dispatch (e : Event) : M unit :=
  fun c =>
    let '(_, c1, ops1) := handler e c in
    if existsb is_SetGpsData ops1
    then
      let '(_, c2, ops2) := gpsDataEffect c1 in
      (tt, c2, (ops1 ++ ops2)%list)
    else (tt, c1, ops1).

Fixpoint run (events : list Event) (c : Component)
  : Component * list Op :=
  match events with
  | [] => (c, [])
  | e :: rest =>
      let '(_, c1, ops1) := dispatch e c in
      let '(c2, ops2) := run rest c1 in
      (c2, (ops1 ++ ops2)%list)
  end.

(** *** Observations on a log *)

Definition is_state_write (op : Op) : bool :=
  match op with
  | SetIpData _ | SetGpsData _ | SetAddressData _
  | SetStatus _ | SetErrorMsg _ => true
  | _ => false
  end.

(** The coordinate pairs for which address resolution was started. *)
Definition resolutions (ops : list Op) : list (float * float) :=
  omap (fun op =>
          match op with
          | CallGenerateContent lat lng => Some (lat, lng)
          | _ => None
          end) ops.

(** A delivered fix. *)
Definition fix_at (lat lng accuracy timestamp : float) : Event :=
  PositionSuccess
    (Geolocation.mkPosition
       (Geolocation.mkCoordinates lat lng accuracy) timestamp).

(** The completions of asynchronous operations. *)
Definition is_completion (e : Event) : bool :=
  match e with
  | IpResolved _ | IpRejected _ | PositionSuccess _ | PositionError _
  | GroundingSettled _ => true
  | Mount | Unmount | Load _ => false
  end.

(** The events that neither start a load cycle nor deliver a fix. *)
Definition within_cycle (e : Event) : bool :=
  match e with
  | Load _ | PositionSuccess _ => false
  | _ => true
  end.

Definition is_Unmount (e : Event) : bool :=
  match e with Unmount => true | _ => false end.

(** *** Reference for the coordinate guard

    The pairs that get resolved when the guard is read as a one-place
    memory: a load forgets the remembered pair, and a fix is resolved,
    and remembered, unless its pair is the remembered one. *)
Fixpoint resolved_pairs (remembered : option Coords) (events : list Event)
  : list (float * float) :=
  match events with
  | [] => []
  | Load _ :: rest => resolved_pairs None rest
  | PositionSuccess position :: rest =>
      let c := Geolocation.coords position in
      let la := Geolocation.latitude c in
      let lo := Geolocation.longitude c in
      if strict_eq (lat <$> remembered) la
         && strict_eq (lng <$> remembered) lo
      then resolved_pairs remembered rest
      else (la, lo) :: resolved_pairs (Some (mkCoords la lo)) rest
  | _ :: rest => resolved_pairs remembered rest
  end.

End App.

(* ===================================================================== *)
(** * The resolver read as a decision on the providers' answers *)
(* ===================================================================== *)

(** A reference for [IpService.fetchIpInfo] that leaves the clock and
    the timers out: what each attempt can work with, the record it builds,
    and the order in which the attempts are consulted. *)
Module Cascade.
Import Js IpService.

(** The value a property read leaves in a record field. *)
Definition attribute (data : value) (key : string) : value :=
  match get data key with
  | Normal v => v
  | Throw _ => Undefined
  end.

(** What a request bounded by [bound] completes with. *)
Definition settled (bound : N) (answer : Network) : completion Response :=
  match answer with
  | Responds after r =>
      if decide (after < bound)%N then Normal r else Throw AbortError
  | Fails after =>
      if decide (after < bound)%N then Throw NetworkError
      else Throw AbortError
  | Hangs => Throw AbortError
  end.

(** The body an attempt sets out to read: the answer came before the
    bound and passed the status check when the attempt makes one. *)
Definition body (bound : N) (checks_status : bool) (answer : Network)
  : option Body :=
  match answer with
  | Responds after r =>
      if decide (after < bound)%N
      then if checks_status && negb (ok r) then None else Some (json r)
      else None
  | Fails _ | Hangs => None
  end.

(** The payload an attempt gets to normalise: its body was read to the
    end, it parsed, and the parsed value has properties to read. *)
Definition usable (bound : N) (checks_status : bool) (answer : Network)
  : option value :=
  match body bound checks_status answer with
  | Some (Reads _ (Normal data)) =>
      if is_nullish data then None else Some data
  | _ => None
  end.

(** The attempt is left waiting for a body that never comes to an end. *)
Definition stalls (bound : N) (checks_status : bool) (answer : Network)
  : bool :=
  match body bound checks_status answer with
  | Some Stalls => true
  | _ => false
  end.

(** No attempt follows this one: it gives a record or stays pending. *)
Definition decisive (bound : N) (checks_status : bool) (answer : Network)
  : bool :=
  match usable bound checks_status answer with
  | Some _ => true
  | None => stalls bound checks_status answer
  end.

(** How long an attempt waits for the headers. *)
Definition duration (bound : N) (answer : Network) : N :=
  match answer with
  | Responds after _ | Fails after => N.min after bound
  | Hangs => bound
  end.

(** How long an attempt spends on a body that it reads to the end. *)
Definition reading (bound : N) (checks_status : bool) (answer : Network)
  : N :=
  match body bound checks_status answer with
  | Some (Reads after _) => after
  | _ => 0%N
  end.

Definition from_dbip (data : value) : IpInfo :=
  mkIpInfo (or (attribute data "ipAddress") (Str "未知"))
           (or (attribute data "city") (Str ""))
           (or (attribute data "regionName") (Str ""))
           (or (attribute data "countryName") (Str ""))
           (Str "Unknown Provider").

Definition from_ipapi (data : value) : IpInfo :=
  mkIpInfo (attribute data "ip")
           (attribute data "city")
           (attribute data "region")
           (attribute data "country_name")
           (or (attribute data "org") (attribute data "asn")).

Definition from_ipify (data : value) : IpInfo :=
  mkIpInfo (attribute data "ip") (Str "") (Str "") (Str "") (Str "").

Definition dbip_url : string := "https://api.db-ip.com/v2/free/self".
Definition ipapi_url : string := "https://ipapi.co/json/".
Definition ipify_url : string := "https://api.ipify.org?format=json".

Section Reference.

Variable net : string -> Network.

(** First usable answer in the order db-ip, ipapi.co, ipify; only the
    first two attempts look at the status.  An attempt whose body never
    comes to an end leaves the call pending: no later attempt is made. *)
Definition outcome : settling IpInfo :=
  match usable 5000 true (net dbip_url) with
  | Some data => Settled (Normal (from_dbip data))
  | None =>
      if stalls 5000 true (net dbip_url) then Pending
      else
        match usable 5000 true (net ipapi_url) with
        | Some data => Settled (Normal (from_ipapi data))
        | None =>
            if stalls 5000 true (net ipapi_url) then Pending
            else
              match usable 3000 false (net ipify_url) with
              | Some data => Settled (Normal (from_ipify data))
              | None =>
                  if stalls 3000 false (net ipify_url) then Pending
                  else Settled (Throw (Error "无法获取网络信息"))
              end
        end
  end.

(** The number of requests made. *)
Definition requests : N :=
  if decisive 5000 true (net dbip_url) then 1
  else if decisive 5000 true (net ipapi_url) then 2
  else 3.

(** The time the call has taken when it settles, or when it is left
    waiting for a body. *)
Definition elapsed : N :=
  (duration 5000 (net dbip_url) + reading 5000 true (net dbip_url)
   + if decisive 5000 true (net dbip_url) then 0
     else
       duration 5000 (net ipapi_url) + reading 5000 true (net ipapi_url)
       + if decisive 5000 true (net ipapi_url) then 0
         else duration 3000 (net ipify_url)
              + reading 3000 false (net ipify_url))%N.

(** What the call writes to the console. *)
Definition warnings : list string :=
  if decisive 5000 true (net dbip_url) then []
  else ["Primary IP fetch failed, trying fallback..."].

End Reference.


(** A run from [rt] that ends with [result], settled or left pending,
    after [dt] ms, having made [reqs] requests and written [logs] to the
    console. *)
Definition completes (rt : Runtime) (result : settling IpInfo)
    (dt reqs : N) (logs : list string)
    (out : settling IpInfo * Runtime) : Prop :=
  out.1 = result
  ∧ now out.2 = (now rt + dt)%N
  ∧ next_id out.2 = (next_id rt + reqs)%N
  ∧ console out.2 = (console rt ++ logs)%list.

End Cascade.

(* ===================================================================== *)
(** * services/ipService.ts, the resolver without timeouts *)
(* ===================================================================== *)

(** The second resolver of the repository: ipapi.co first, db-ip as the
    fallback, both through the plain [fetch].  A plain [fetch] settles
    when the network does and not before, and a body may never come to
    an end, so a call may stay pending for ever: a computation yields
    [None] when it never settles. *)
Module Legacy.
Import Js IpService.

Definition M (A : Type) : Type := Runtime -> option (completion A * Runtime).

Definition ret {A} (a : A) : M A := fun rt => Some (Normal a, rt).

Definition bind {A B} (m : M A) (k : A -> M B) : M B :=
  fun rt =>
    match m rt with
    | Some (Normal a, rt') => k a rt'
    | Some (Throw e, rt') => Some (Throw e, rt')
    | None => None
    end.

Definition throw {A} (e : exn) : M A := fun rt => Some (Throw e, rt).

(** [try { body } catch (e) { handler }]: nothing is caught from a body
    that never settles. *)
Definition try_catch {A} (body : M A) (handler : exn -> M A) : M A :=
  fun rt =>
    match body rt with
    | Some (Normal a, rt') => Some (Normal a, rt')
    | Some (Throw e, rt') => handler e rt'
    | None => None
    end.

Definition lift {A} (c : completion A) : M A := fun rt => Some (c, rt).

#[global] Instance M_ret : MRet M := @ret.
#[global] Instance M_bind : MBind M := fun A B k m => bind m k.

Definition console_warn (msg : string) : M unit :=
  fun rt =>
    Some (Normal tt,
          mkRuntime (now rt) (next_id rt) (pending rt)
                    (console rt ++ [msg])%list).

(** [await response.json()] *)
Definition await_json (response : Response) : M value :=
  fun rt =>
    match json response with
    | Reads after c => Some (c, advance (now rt + after) rt)
    | Stalls => None
    end.

Section Service.

Variable net : string -> Network.

(** [await fetch(resource)] *)
Definition await_fetch (resource : string) : M Response :=
  fun rt =>
    match net resource with
    | Responds after r => Some (Normal r, advance (now rt + after) rt)
    | Fails after => Some (Throw NetworkError, advance (now rt + after) rt)
    | Hangs => None
    end.

Definition fetchIpInfo : M IpInfo :=
  try_catch
    (response ← await_fetch "https://ipapi.co/json/";
     if negb (ok response)
     then throw (Error "IP Network request failed")
     else
       data ← await_json response;
       ip ← lift (get data "ip");
       city ← lift (get data "city");
       region ← lift (get data "region");
       country_name ← lift (get data "country_name");
       org ← lift (get data "org");
       org' ← (if truthy org then mret org else lift (get data "asn"));
       mret (mkIpInfo (or ip (Str "未知"))
                      (or city (Str ""))
                      (or region (Str ""))
                      (or country_name (Str ""))
                      (or org' (Str "未知运营商"))))
    (fun error =>
       console_warn "Primary IP fetch failed, trying fallback...";;
       try_catch
         (fallback ← await_fetch "https://api.db-ip.com/v2/free/self";
          data ← await_json fallback;
          ipAddress ← lift (get data "ipAddress");
          city ← lift (get data "city");
          regionName ← lift (get data "regionName");
          countryName ← lift (get data "countryName");
          mret (mkIpInfo ipAddress city regionName countryName
                         (Str "Unknown")))
         (fun e => throw (Error "无法获取网络信息"))).

End Service.

(** *** Reference: the first usable answer, or pending *)

(** Whether the network ever settles the request. *)
Definition settles (answer : Network) : bool :=
  match answer with
  | Hangs => false
  | Responds _ _ | Fails _ => true
  end.

(** The body an attempt sets out to read. *)
Definition body (checks_status : bool) (answer : Network) : option Body :=
  match answer with
  | Responds _ r =>
      if checks_status && negb (ok r) then None else Some (json r)
  | Fails _ | Hangs => None
  end.

(** The payload an attempt gets to normalise. *)
Definition usable (checks_status : bool) (answer : Network) : option value :=
  match body checks_status answer with
  | Some (Reads _ (Normal data)) =>
      if is_nullish data then None else Some data
  | _ => None
  end.

(** The attempt is left waiting for a body that never comes to an end. *)
Definition stalls (checks_status : bool) (answer : Network) : bool :=
  match body checks_status answer with
  | Some Stalls => true
  | _ => false
  end.

Definition from_ipapi (data : value) : IpInfo :=
  mkIpInfo (or (Cascade.attribute data "ip") (Str "未知"))
           (or (Cascade.attribute data "city") (Str ""))
           (or (Cascade.attribute data "region") (Str ""))
           (or (Cascade.attribute data "country_name") (Str ""))
           (or (or (Cascade.attribute data "org")
                   (Cascade.attribute data "asn"))
               (Str "未知运营商")).

Definition from_dbip (data : value) : IpInfo :=
  mkIpInfo (Cascade.attribute data "ipAddress")
           (Cascade.attribute data "city")
           (Cascade.attribute data "regionName")
           (Cascade.attribute data "countryName")
           (Str "Unknown").

Definition outcome (net : string -> Network) : option (completion IpInfo) :=
  if negb (settles (net Cascade.ipapi_url)) then None
  else
    match usable true (net Cascade.ipapi_url) with
    | Some data => Some (Normal (from_ipapi data))
    | None =>
        if stalls true (net Cascade.ipapi_url) then None
        else if negb (settles (net Cascade.dbip_url)) then None
        else
          match usable false (net Cascade.dbip_url) with
          | Some data => Some (Normal (from_dbip data))
          | None =>
              if stalls false (net Cascade.dbip_url) then None
              else Some (Throw (Error "无法获取网络信息"))
          end
    end.

End Legacy.

(* ===================================================================== *)
(** * App.tsx, what the component shows *)
(* ===================================================================== *)

(** The parts of the markup returned by [App] that depend on the state:
    the error banner, the address card, the coordinate line and the
    refresh button.  The IP card and the static markup are left out, and
    the coordinate line is kept as the pair of numbers it formats. *)
Module Page.
Import Js App.

Inductive AddressCard : Type :=
| Skeleton
| Address (formattedAddress : string)
| Hint (text : string).

Record View : Type := mkView {
  errorBanner : option string;
  progressBar : bool;
  successDot : bool;
  addressCard : AddressCard;
  coordinates : option (float * float);
  refreshDisabled : bool;
  refreshLabel : string
}.

Definition is_LOADING (s : LocationStatus) : bool :=
  match s with LOADING => true | _ => false end.

Definition is_SUCCESS (s : LocationStatus) : bool :=
  match s with SUCCESS => true | _ => false end.

Definition is_DENIED (s : LocationStatus) : bool :=
  match s with DENIED => true | _ => false end.

Definition render (c : Component) : View :=
  mkView
    (* {errorMsg && <div>{errorMsg}</div>} *)
    (if truthy (Str (errorMsg c)) then Some (errorMsg c) else None)
    (is_LOADING (status c))
    (is_SUCCESS (status c))
    (if is_LOADING (status c) then Skeleton
     else
       match addressData c with
       | Some a => Address (formattedAddress a)
       | None =>
           Hint (if is_DENIED (status c) then "无法获取位置权限"
                 else if truthy (Str (errorMsg c)) then "位置获取异常"
                 else "正在等待 GPS 信号...")
       end)
    (* gpsData ? `${latitude.toFixed(6)}, ${longitude.toFixed(6)}` : "--, --" *)
    (match gpsData c with
     | Some g => Some (latitude g, longitude g)
     | None => None
     end)
    (is_LOADING (status c))
    (if is_LOADING (status c) then "正在刷新..." else "刷新位置信息").

End Page.

(* ===================================================================== *)
(** * Observations on the events and the log *)
(* ===================================================================== *)

Module Observe.
Import Js App.

(** The coordinate pairs of the fixes among the events, in order. *)
Definition fix_pairs (events : list Event) : list (float * float) :=
  omap (fun e =>
          match e with
          | PositionSuccess position =>
              Some (Geolocation.latitude (Geolocation.coords position),
                    Geolocation.longitude (Geolocation.coords position))
          | _ => None
          end) events.

(** The asynchronous operations started, in order. *)
Definition is_call (op : Op) : bool :=
  match op with
  | CallFetchIpInfo | CallGetCurrentPosition _ _ _
  | CallGenerateContent _ _ => true
  | _ => false
  end.

Definition is_console (op : Op) : bool :=
  match op with
  | ConsoleWarn _ | ConsoleError _ => true
  | _ => false
  end.

Definition is_Mount (e : Event) : bool :=
  match e with Mount => true | _ => false end.

(** The events that leave a load cycle open: IP answers and fixes. *)
Definition keeps_loading (e : Event) : bool :=
  match e with
  | IpResolved _ | IpRejected _ | PositionSuccess _ => true
  | _ => false
  end.

(** The message the error callback chooses. *)
Definition denied_message (error : Geolocation.PositionError) : string :=
  match Geolocation.code error with
  | 1%Z => "请允许浏览器获取您的位置权限"
  | 2%Z => "GPS 信号弱，无法获取位置"
  | 3%Z => "定位请求超时"
  | _ => Geolocation.message error
  end.

End Observe.

(* ===================================================================== *)
(** * Proof automation *)
(* ===================================================================== *)

Module AppTactics.
Import App.

(** Runs one turn of the event loop symbolically. *)
Ltac turn :=
  cbv [dispatch handler mount unmount loadLocationData ipResolved ipRejected
       positionSuccess positionError groundingSettled gpsDataEffect
       resolveAddressWithGemini fix_at
       mbind mret M_bind M_ret bind ret gets perform
       setIpData setGpsData setAddressData setStatus setErrorMsg
       set_lastResolvedCoords set_isMounted];
  cbn [ipData gpsData addressData status errorMsg lastResolvedCoords
       isMounted latitude longitude accuracy timestamp
       Geolocation.coords Geolocation.latitude Geolocation.longitude
       Geolocation.accuracy Geolocation.timestamp Geolocation.code
       Geolocation.message
       existsb is_SetGpsData app negb orb andb fst snd].

(** Case analysis on membership in an explicit log. *)
Ltac log_cases H :=
  repeat (apply elem_of_cons in H as [H|H];
          [try discriminate H; try (injection H as ->)|]);
  try (apply elem_of_nil in H; destruct H).

(** Membership in an explicit log. *)
Ltac in_log :=
  repeat first [apply list_elem_of_here | apply list_elem_of_further].

End AppTactics.

(* ===================================================================== *)
(** * Concrete environments *)
(* ===================================================================== *)

Module Examples.
Import Js IpService App.

(** A fresh event loop. *)
Definition rt0 : Runtime := mkRuntime 0 0 [] [].

(** An HTTP 500 answer whose body is the JSON object [{}]. *)
Definition http500 : Response :=
  mkResponse false (Reads 5 (Normal (Obj ∅))).

(** Every provider answers HTTP 500 after 120 ms. *)
Definition all_http500 (url : string) : Network := Responds 120 http500.

(** No connectivity: every request fails after 40 ms. *)
Definition offline (url : string) : Network := Fails 40.

(** Nothing ever answers. *)
Definition silent (url : string) : Network := Hangs.

(** db-ip answers 200 with the JSON object [{}]. *)
Definition dbip_empty (url : string) : Network :=
  Responds 80 (mkResponse true (Reads 5 (Normal (Obj ∅)))).

(** db-ip answers 200 with a city only. *)
Definition shanghai : gmap string value := {[ "city" := Str "上海" ]}.
Definition dbip_city (url : string) : Network :=
  Responds 80 (mkResponse true (Reads 5 (Normal (Obj shanghai)))).

(** db-ip is down and ipapi.co answers 200 with the JSON object [{}]. *)
Definition ipapi_empty (url : string) : Network :=
  if String.eqb url "https://ipapi.co/json/"
  then Responds 80 (mkResponse true (Reads 5 (Normal (Obj ∅))))
  else Fails 40.

Definition fix_p1 : Event := fix_at 31.2304 121.4737 12 1000.
Definition fix_p2 : Event := fix_at 31.2304 121.4737 15 2000.
Definition fix_q : Event := fix_at 39.9042 116.4074 20 1500.

Definition same_as_p (pair : float * float) : bool :=
  PrimFloat.eqb pair.1 31.2304 && PrimFloat.eqb pair.2 121.4737.

(** A component that was unmounted with results on display. *)
Definition torn_down : Component :=
  mkComponent None None (Some (mkAddress "人民广场" (Some "Google Maps Data")))
              SUCCESS "" None false.

Definition sample_ip : IpInfo :=
  mkIpInfo (Str "203.0.113.7") (Str "上海") (Str "上海") (Str "中国")
           (Str "Unknown Provider").

(** A mounted component showing the results of an earlier cycle. *)
Definition on_display : Component :=
  mkComponent (Some sample_ip) (Some (mkGps 31.2304 121.4737 12 1000))
              (Some (mkAddress "上海市黄浦区人民大道" (Some "Google Maps Data")))
              DENIED "定位请求超时" (Some (mkCoords 31.2304 121.4737)) true.

Definition resolved (text : string) : Event :=
  GroundingSettled (Normal (Some text)).

(** Three refreshes; the device is at the first place again on the
    third. *)
Definition refreshed_thrice : list Event :=
  [ Load true; fix_p1; resolved "上海市黄浦区人民大道";
    Load true; fix_q; resolved "北京市东城区";
    Load true; fix_p2 ].

(** Every kind of completion, arriving late. *)
Definition late_completions : list Event :=
  [ IpResolved sample_ip; IpRejected (Error "无法获取网络信息"); fix_p1;
    PositionError (Geolocation.mkPositionError 3 "Timeout expired");
    resolved "上海市黄浦区人民大道"; GroundingSettled (Throw NetworkError) ].

(** A grounding request that fails, then an IP answer, before the same
    place is reported again. *)
Definition failed_then_ip : list Event :=
  [ GroundingSettled (Throw NetworkError); IpResolved sample_ip ].

End Examples.

(* ===================================================================== *)
(** * More concrete environments *)
(* ===================================================================== *)

Module Samples.
Import Js IpService App.

(** db-ip answers 200 with a city; the other providers are down. *)
Definition only_dbip (url : string) : Network :=
  if String.eqb url "https://api.db-ip.com/v2/free/self"
  then Responds 80 (mkResponse true
                      (Reads 5 (Normal (Obj Examples.shanghai))))
  else Fails 40.

(** ipapi.co answers 200 with an ASN and no organisation. *)
Definition asn_only : gmap string value :=
  {[ "ip" := Str "203.0.113.7"; "asn" := Str "AS64500" ]}.
Definition ipapi_asn (url : string) : Network :=
  Responds 90 (mkResponse true (Reads 5 (Normal (Obj asn_only)))).

(** db-ip answers 200 in time with a body that never comes to an end;
    the other providers would answer at once. *)
Definition dbip_stalls (url : string) : Network :=
  if String.eqb url "https://api.db-ip.com/v2/free/self"
  then Responds 80 (mkResponse true Stalls)
  else Responds 10 (mkResponse true (Reads 5 (Normal (Obj asn_only)))).


(** IP answers and a fix, with no word from the grounding call. *)
Definition waiting : list Event :=
  [ IpRejected (Error "无法获取网络信息"); Examples.fix_p1;
    IpResolved Examples.sample_ip ].

Definition timed_out : Geolocation.PositionError :=
  Geolocation.mkPositionError 3 "Timeout expired".

(** After teardown: a refresh, completions and a second teardown. *)
Definition after_teardown : list Event :=
  [ Load true; Examples.fix_p1; Unmount; IpResolved Examples.sample_ip;
    GroundingSettled (Throw NetworkError) ].

End Samples.

(* ===================================================================== *)
(** * Properties of the timeout-bounded fetcher *)
(* ===================================================================== *)

Module IpServiceFacts.
Import Js IpService.

Section FetchWithTimeout.

Variable net : string -> Network.

Lemma firing_time_fresh delay rt :
  firing_time (next_id rt) (setTimeout delay rt).2
  = Some (now rt + timer_delay delay)%N.
Proof.
  unfold firing_time, setTimeout; simpl.
  rewrite decide_True by reflexivity. reflexivity.
Qed.

Lemma cancel_removes id timers : id ∉ (cancel id timers).*1.
Proof.
  unfold cancel. intros Hin.
  apply list_elem_of_fmap in Hin as [[i d] [-> Hin]].
  apply list_elem_of_filter in Hin as [Hne _]. simpl in Hne. congruence.
Qed.

(** The three ways a call can go, by what comes first. *)
Lemma fetchWithTimeout_unfold resource options rt :
  fetchWithTimeout net resource options rt
  = let configured := default 5000%N (options ≫= timeout) in
    let bound := timer_delay configured in
    let rt1 := (setTimeout configured rt).2 in
    let abort_at := (now rt + bound)%N in
    match net resource with
    | Responds after r =>
        if decide (now rt + after < abort_at)%N
        then (Settled (Normal r),
              (clearTimeout (next_id rt) (advance (now rt + after) rt1)).2)
        else (Settled (Throw AbortError), advance abort_at rt1)
    | Fails after =>
        if decide (now rt + after < abort_at)%N
        then (Settled (Throw NetworkError), advance (now rt + after) rt1)
        else (Settled (Throw AbortError), advance abort_at rt1)
    | Hangs => (Settled (Throw AbortError), advance abort_at rt1)
    end.
Proof.
  unfold fetchWithTimeout.
  assert (default 5000%N (timeout (default (mkInit None) options))
          = default 5000%N (options ≫= timeout)) as ->
    by (destruct options as [[[t|]]|]; reflexivity).
  set (configured := default 5000%N (options ≫= timeout)).
  cbv zeta.
  unfold mbind, M_bind, bind.
  change (setTimeout configured rt) with
    (Settled (Normal (next_id rt)) : settling N,
     (setTimeout configured rt).2).
  cbv beta iota.
  unfold await_fetch.
  rewrite firing_time_fresh. simpl default.
  change (now (setTimeout configured rt).2) with (now rt).
  set (bound := timer_delay configured).
  destruct (net resource) as [after r|after|]; [| |reflexivity].
  - destruct (decide (now rt + after < now rt + bound)%N); reflexivity.
  - destruct (decide (now rt + after < now rt + bound)%N); reflexivity.
Qed.

(** When the response arrives in time the timer is cleared. *)
Lemma fetchWithTimeout_clears_on_response resource options rt after r :
  net resource = Responds after r →
  (after < timer_delay (default 5000 (options ≫= timeout)))%N →
  next_id rt ∉ (pending (fetchWithTimeout net resource options rt).2).*1.
Proof.
  intros Hnet Hlt. rewrite fetchWithTimeout_unfold. cbv zeta. rewrite Hnet.
  rewrite decide_True by lia. simpl. apply cancel_removes.
Qed.

(** When the request fails on its own before the bound, nothing clears
    the timer: the [clearTimeout] after the [await] is skipped by the
    throw, so the timer stays pending until it fires. *)
Lemma fetchWithTimeout_keeps_timer_on_failure resource options rt after :
  net resource = Fails after →
  (after < timer_delay (default 5000 (options ≫= timeout)))%N →
  (fetchWithTimeout net resource options rt).1
  = Settled (Throw NetworkError)
  ∧ (next_id rt,
     now rt + timer_delay (default 5000 (options ≫= timeout)))%N
    ∈ pending (fetchWithTimeout net resource options rt).2.
Proof.
  intros Hnet Hlt. rewrite fetchWithTimeout_unfold. cbv zeta. rewrite Hnet.
  rewrite decide_True by lia. split; [reflexivity|].
  simpl. rewrite filter_cons_True by (simpl; lia). apply list_elem_of_here.
Qed.

Lemma timer_delay_in_range delay :
  (delay < 2 ^ 31)%N → timer_delay delay = delay.
Proof.
  intros Hlt. unfold timer_delay.
  rewrite decide_True; [reflexivity|exact Hlt].
Qed.



(** C2, on the environment without connectivity: the call rejects after
    40 ms with the network's error and leaves its timer, due at 5000 ms,
    in the table of pending timers. *)
Theorem fetchWithTimeout_failure_leaves_timer :
  fetchWithTimeout Examples.offline "https://api.db-ip.com/v2/free/self"
                   (Some (mkInit (Some 5000%N))) Examples.rt0
  = (Settled (Throw NetworkError), mkRuntime 40 1 [(0%N, 5000%N)] []).
Proof. reflexivity. Qed.

End FetchWithTimeout.

(* ===================================================================== *)
(** * Properties of the IP resolver *)
(* ===================================================================== *)

Section FetchIpInfo.

Lemma or_string_not_nullish a s : is_nullish (or a (Str s)) = false.
Proof.
  unfold or. destruct (truthy a) eqn:Ha; [|reflexivity].
  destruct a; simpl in *; congruence.
Qed.

Lemma or_present_string (props : gmap string value) key s :
  (∀ key v, props !! key = Some v → is_string v = true) →
  is_string (or (default Undefined (props !! key)) (Str s)) = true.
Proof.
  intros Hstr. unfold or.
  destruct (props !! key) as [v|] eqn:Hkey; simpl; [|reflexivity].
  destruct (truthy v); eauto.
Qed.

Variable net : string -> Network.

Lemma fetchWithTimeout_response resource options rt after r :
  net resource = Responds after r →
  (after < timer_delay (default 5000 (options ≫= timeout)))%N →
  ∃ rt',
    fetchWithTimeout net resource options rt = (Settled (Normal r), rt').
Proof.
  intros Hnet Hlt. rewrite fetchWithTimeout_unfold. cbv zeta. rewrite Hnet.
  rewrite decide_True by lia. eauto.
Qed.

Lemma fetchWithTimeout_failure resource options rt after :
  net resource = Fails after →
  (after < timer_delay (default 5000 (options ≫= timeout)))%N →
  ∃ rt',
    fetchWithTimeout net resource options rt
    = (Settled (Throw NetworkError), rt').
Proof.
  intros Hnet Hlt. rewrite fetchWithTimeout_unfold. cbv zeta. rewrite Hnet.
  rewrite decide_True by lia. eauto.
Qed.

(** The last resort: when the first two requests fail and ipify answers in
    time with a body that is read to its end and holds a JSON object, the
    record has the payload's [ip], as it is, and empty descriptive
    fields.  The [ok] flag of the answer plays no part. *)
Lemma fetchIpInfo_last_resort rt a b after status_ok reading props :
  net "https://api.db-ip.com/v2/free/self" = Fails a → (a < 5000)%N →
  net "https://ipapi.co/json/" = Fails b → (b < 5000)%N →
  net "https://api.ipify.org?format=json"
    = Responds after
        (mkResponse status_ok (Reads reading (Normal (Obj props)))) →
  (after < 3000)%N →
  (fetchIpInfo net rt).1
  = Settled (Normal (mkIpInfo (default Undefined (props !! "ip"))
                              (Str "") (Str "") (Str "") (Str ""))).
Proof.
  intros HA Ha HB Hb HC Hc.
  unfold fetchIpInfo, try_catch.
  destruct (fetchWithTimeout_failure _ (Some (mkInit (Some 5000%N))) rt
              _ HA Ha) as [rt1 H1].
  unfold mbind at 1, M_bind, bind at 1. rewrite H1.
  unfold mbind at 1, M_bind, bind at 1, console_warn.
  unfold mbind at 1, M_bind, bind at 1.
  match goal with |- context [fetchWithTimeout net "https://ipapi.co/json/"
                                ?o ?r] =>
    destruct (fetchWithTimeout_failure _ o r _ HB Hb) as [rt2 H2] end.
  rewrite H2.
  destruct (fetchWithTimeout_response _ (Some (mkInit (Some 3000%N))) rt2
              _ _ HC Hc) as [rt3 H3].
  unfold mbind at 1, M_bind, bind at 1. rewrite H3. reflexivity.
Qed.

(** Whatever the providers do, the only error the resolver lets out is
    the terminal one. *)
Lemma fetchIpInfo_single_error rt e :
  (fetchIpInfo net rt).1 = Settled (Throw e) → e = Error "无法获取网络信息".
Proof.
  unfold fetchIpInfo, try_catch.
  match goal with |- context [match ?m rt with _ => _ end] =>
    destruct (m rt) as [[[r|e1]|] rt1] end; [discriminate| |discriminate].
  unfold mbind at 1, M_bind, bind at 1, console_warn.
  match goal with |- context [let (_, _) := ?x in _] =>
    destruct x as [[[r2|e2]|] rt2] end; [discriminate| |discriminate].
  match goal with |- context [let (_, _) := ?x in _] =>
    destruct x as [[[r3|e3]|] rt3] end; [discriminate| |discriminate].
  unfold throw. simpl. congruence.
Qed.
(** C7, provider A.  When db-ip answers 200 in time and its body, read
    to the end, holds a JSON object, the record is built from it: no
    field is [undefined] or [null];
    [city], [region] and [country] are the empty string when their
    attribute is absent, [ip] is "未知" when [ipAddress] is absent, and
    [org] is the fixed "Unknown Provider" whatever the payload holds; and
    when the attributes that are present hold strings, all five fields
    are strings. *)
Theorem fetchIpInfo_primary_defaults rt after reading props :
  net "https://api.db-ip.com/v2/free/self"
    = Responds after (mkResponse true (Reads reading (Normal (Obj props)))) →
  (after < 5000)%N →
  ∃ info,
    (fetchIpInfo net rt).1 = Settled (Normal info)
    ∧ (is_nullish (ip info) = false ∧ is_nullish (city info) = false
       ∧ is_nullish (region info) = false
       ∧ is_nullish (country info) = false
       ∧ is_nullish (org info) = false)
    ∧ (props !! "ipAddress" = None → ip info = Str "未知")
    ∧ (props !! "city" = None → city info = Str "")
    ∧ (props !! "regionName" = None → region info = Str "")
    ∧ (props !! "countryName" = None → country info = Str "")
    ∧ org info = Str "Unknown Provider"
    ∧ ((∀ key v, props !! key = Some v → is_string v = true) →
       is_string (ip info) = true ∧ is_string (city info) = true
       ∧ is_string (region info) = true
       ∧ is_string (country info) = true
       ∧ is_string (org info) = true).
Proof.
  intros Hnet Hlt.
  destruct (fetchWithTimeout_response _ (Some (mkInit (Some 5000%N))) rt
              _ _ Hnet Hlt) as [rt' Hfetch].
  unfold fetchIpInfo, try_catch.
  unfold mbind at 1, M_bind, bind at 1. rewrite Hfetch. simpl.
  eexists; split; [reflexivity|]. simpl.
  split; [repeat split; apply or_string_not_nullish|].
  repeat (split; [intros ->; reflexivity|]).
  split; [reflexivity|].
  intros Hstr. repeat split; eapply or_present_string; eauto.
Qed.

(** On the concrete environments. *)
Lemma fetchIpInfo_offline :
  (fetchIpInfo Examples.offline Examples.rt0).1
  = Settled (Throw (Error "无法获取网络信息")).
Proof. reflexivity. Qed.

Lemma fetchIpInfo_silent :
  fetchIpInfo Examples.silent Examples.rt0
  = (Settled (Throw (Error "无法获取网络信息")),
     mkRuntime 13000 3 []
               ["Primary IP fetch failed, trying fallback..."]).
Proof. reflexivity. Qed.

(** The fallback provider copies the attributes as they are: with the
    payload [{}] every field of the record is [undefined]. *)
Lemma fetchIpInfo_fallback_copies_undefined :
  (fetchIpInfo Examples.ipapi_empty Examples.rt0).1
  = Settled
      (Normal (mkIpInfo Undefined Undefined Undefined Undefined Undefined)).
Proof. reflexivity. Qed.

(** C1, with every provider answering HTTP 500 and the body [{}]: the
    first two attempts are given up on the status, the third never looks
    at it, so the resolver returns a record, whose [ip] is [undefined],
    where the terminal error was due. *)
Theorem fetchIpInfo_all_http500_returns :
  (fetchIpInfo Examples.all_http500 Examples.rt0).1
  = Settled
      (Normal (mkIpInfo Undefined (Str "") (Str "") (Str "") (Str ""))).
Proof. reflexivity. Qed.

(** C7 as stated fails on provider A: with the payload [{}], in which
    [ipAddress] is absent, the [ip] field is "未知" and not the empty
    string. *)
Lemma fetchIpInfo_absent_ip_is_not_empty :
  (∅ : gmap string value) !! "ipAddress" = None
  ∧ ∃ info, (fetchIpInfo Examples.dbip_empty Examples.rt0).1
            = Settled (Normal info)
            ∧ ip info = Str "未知"
            ∧ ip info ≠ Str "".
Proof.
  split; [reflexivity|].
  eexists; split; [reflexivity|]. split; [reflexivity|]. discriminate.
Qed.

End FetchIpInfo.


Lemma fetchIpInfo_primary_defaults_witness :
  Examples.dbip_city "https://api.db-ip.com/v2/free/self"
  = Responds 80 (mkResponse true (Reads 5 (Normal (Obj Examples.shanghai))))
  ∧ (80 < 5000)%N
  ∧ ∃ info,
      (fetchIpInfo Examples.dbip_city Examples.rt0).1 = Settled (Normal info)
      ∧ ip info = Str "未知"
      ∧ org info = Str "Unknown Provider".
Proof.
  split; [reflexivity|]. split; [reflexivity|].
  destruct (fetchIpInfo_primary_defaults
              Examples.dbip_city Examples.rt0 80%N 5%N Examples.shanghai
              eq_refl eq_refl)
    as (info & Hrun & _ & Hip & _ & _ & _ & Horg & _).
  exists info. split; [exact Hrun|]. split; [exact (Hip eq_refl) | exact Horg].
Defined.

End IpServiceFacts.

(* ===================================================================== *)
(** * Properties of the location orchestrator *)
(* ===================================================================== *)

Module AppFacts.
Import Js App AppTactics.

Lemma resolutions_app ops1 ops2 :
  resolutions (ops1 ++ ops2) = (resolutions ops1 ++ resolutions ops2)%list.
Proof. apply omap_app. Qed.

Lemma run_cons e events c :
  run (e :: events) c
  = ((run events (dispatch e c).1.2).1,
     ((dispatch e c).2 ++ (run events (dispatch e c).1.2).2)%list).
Proof.
  simpl. destruct (dispatch e c) as [[[] c1] ops1]. simpl.
  destruct (run events c1) as [c2 ops2]. reflexivity.
Qed.

Lemma run_app events1 events2 c :
  run (events1 ++ events2) c
  = ((run events2 (run events1 c).1).1,
     ((run events1 c).2 ++ (run events2 (run events1 c).1).2)%list).
Proof.
  revert c. induction events1 as [|e events1 IH]; intros c.
  - simpl. destruct (run events2 c); reflexivity.
  - rewrite <- app_comm_cons, !run_cons, IH. simpl. rewrite app_assoc. reflexivity.
Qed.

(** What a delivered fix does to a mounted component. *)
Lemma dispatch_fix c la lo acc ts :
  isMounted c = true →
  dispatch (fix_at la lo acc ts) c
  = let g := mkGps la lo acc ts in
    if same_coords (lastResolvedCoords c) g
    then (tt,
          mkComponent (ipData c) (Some g) (addressData c) (status c)
                      (errorMsg c) (lastResolvedCoords c) true,
          [SetGpsData g])
    else (tt,
          mkComponent (ipData c) (Some g) (addressData c) (status c)
                      (errorMsg c) (Some (mkCoords la lo)) true,
          [SetGpsData g; CallGenerateContent la lo]).
Proof.
  destruct c as [ipd gps addr st err guard mounted]. simpl. intros ->.
  turn.
  destruct (same_coords guard _) eqn:Hsame; reflexivity.
Qed.

(** A completion that finds the component unmounted changes nothing and
    calls no state setter. *)
Lemma dispatch_unmounted c e :
  isMounted c = false → is_completion e = true →
  (dispatch e c).1.2 = c ∧ filter is_state_write (dispatch e c).2 = [].
Proof.
  destruct c as [ipd gps addr st err guard mounted]. simpl. intros -> He.
  destruct e as [| | |data|ex|position|error|[[text|]|ex]];
    try discriminate He; turn; split; reflexivity.
Qed.

(** C8. Once the liveness flag is cleared, no completion of an asynchronous
    operation (IP resolution resolved or rejected, geolocation success or
    failure, grounding returned or thrown), in any number and order,
    changes the component or calls a state setter. *)
Theorem no_state_write_after_teardown c events :
  isMounted c = false →
  forallb is_completion events = true →
  (run events c).1 = c ∧ filter is_state_write (run events c).2 = [].
Proof.
  intros Hc. induction events as [|e events IH]; intros Hev.
  - split; reflexivity.
  - simpl in Hev. apply andb_prop in Hev as [He Hev].
    destruct (dispatch_unmounted c e Hc He) as [Hsame Hops].
    rewrite run_cons, Hsame. cbn [fst snd].
    destruct (IH Hev) as [IH1 IH2].
    split; [exact IH1|]. rewrite filter_app, Hops, IH2. reflexivity.
Qed.

(** C5. A geolocation failure delivered to the mounted component sets the
    status to DENIED and the error message by code: 1, 2 and 3 have their
    own messages, any other code passes the platform's message through. *)
Theorem positionError_sets_denied c code message :
  isMounted c = true →
  let error := Geolocation.mkPositionError code message in
  let c' := (dispatch (PositionError error) c).1.2 in
  status c' = DENIED
  ∧ (code = 1%Z → errorMsg c' = "请允许浏览器获取您的位置权限")
  ∧ (code = 2%Z → errorMsg c' = "GPS 信号弱，无法获取位置")
  ∧ (code = 3%Z → errorMsg c' = "定位请求超时")
  ∧ (code ≠ 1%Z → code ≠ 2%Z → code ≠ 3%Z → errorMsg c' = message).
Proof.
  destruct c as [ipd gps addr st err guard mounted]. simpl. intros ->.
  turn. split; [reflexivity|].
  repeat split; try (intros ->; reflexivity).
  intros H1 H2 H3.
  destruct code as [|[[p|p|]|[p|p|]|]|p]; try reflexivity; congruence.
Qed.

Lemma truthy_Str text : truthy (Str text) = true ↔ text ≠ "".
Proof.
  simpl. rewrite negb_true_iff. split.
  - intros H ->. discriminate H.
  - intros H. destruct (String.eqb text "") eqn:E; [|reflexivity].
    apply String.eqb_eq in E. contradiction.
Qed.

(** C4. Whatever the grounding call comes back with while the component
    is mounted, [resolveAddressWithGemini] sets the status to SUCCESS, and
    to nothing else, sets no error message, and sets [addressData]: to the
    trimmed text when there is one, to the soft-fail placeholder when the
    text is missing or empty, to the failure placeholder when the call
    threw. *)
Theorem groundingSettled_always_success c outcome :
  isMounted c = true →
  let out := dispatch (GroundingSettled outcome) c in
  status out.1.2 = SUCCESS
  ∧ SetStatus SUCCESS ∈ out.2
  ∧ (∀ st, SetStatus st ∈ out.2 → st = SUCCESS)
  ∧ (∀ m, SetErrorMsg m ∉ out.2)
  ∧ (∀ text, outcome = Normal (Some text) → text ≠ "" →
       addressData out.1.2
       = Some (mkAddress (trim text) (Some "Google Maps Data")))
  ∧ (outcome = Normal None ∨ outcome = Normal (Some "") →
       addressData out.1.2 = Some (mkAddress "无法解析详细地址" (Some "")))
  ∧ (∀ e, outcome = Throw e →
       addressData out.1.2 = Some (mkAddress "地址解析超时或失败" (Some ""))).
Proof.
  destruct c as [ipd gps addr st err guard mounted]. simpl. intros ->.
  destruct outcome as [[text|]|ex]; turn;
    [destruct (truthy (Str text)) eqn:Htext;
     cbn [fst snd existsb is_SetGpsData app orb status addressData]| |];
    (split; [reflexivity|]); (split; [in_log|]);
    (split; [intros st' Hin; log_cases Hin; reflexivity|]);
    (split; [intros m Hin; log_cases Hin|]);
    (split; [|split]).
  all: try (intros text' [= <-] Hne).
  all: try (intros [[=]|[= ->]]).
  all: try (intros e [=]).
  all: try reflexivity.
  all: try discriminate.
  - apply truthy_Str in Hne. congruence.
Qed.

(** C10. A load leaves [ipData] and [gpsData] as they were and calls
    neither of their setters.  On the mounted component it resets
    [addressData] and the guard to null and resets the error message; the
    message then stays empty, unless the geolocation capability is missing,
    for which the load itself reports a fresh message. *)
Theorem loadLocationData_frame c geolocation :
  let out := dispatch (Load geolocation) c in
  (ipData out.1.2 = ipData c ∧ gpsData out.1.2 = gpsData c
   ∧ (∀ d, SetIpData d ∉ out.2) ∧ (∀ g, SetGpsData g ∉ out.2))
  ∧ (isMounted c = true →
     addressData out.1.2 = None
     ∧ lastResolvedCoords out.1.2 = None
     ∧ SetAddressData None ∈ out.2
     ∧ SetErrorMsg "" ∈ out.2
     ∧ errorMsg out.1.2
       = if geolocation then "" else "您的浏览器不支持定位功能").
Proof.
  destruct c as [ipd gps addr st err guard mounted].
  destruct mounted, geolocation; turn;
    (split; [repeat split; try (intros x Hin; log_cases Hin)|]);
    intros Hm; try discriminate Hm; repeat split; in_log.
Qed.

(** One turn on a mounted component, as far as the guard and the started
    resolutions go. *)
Lemma dispatch_guard c e :
  isMounted c = true → is_Unmount e = false →
  let out := dispatch e c in
  isMounted out.1.2 = true
  ∧ match e with
    | Load _ =>
        lastResolvedCoords out.1.2 = None ∧ resolutions out.2 = []
    | PositionSuccess position =>
        let la := Geolocation.latitude (Geolocation.coords position) in
        let lo := Geolocation.longitude (Geolocation.coords position) in
        if strict_eq (lat <$> lastResolvedCoords c) la
           && strict_eq (lng <$> lastResolvedCoords c) lo
        then lastResolvedCoords out.1.2 = lastResolvedCoords c
             ∧ resolutions out.2 = []
        else lastResolvedCoords out.1.2 = Some (mkCoords la lo)
             ∧ resolutions out.2 = [(la, lo)]
    | _ =>
        lastResolvedCoords out.1.2 = lastResolvedCoords c
        ∧ resolutions out.2 = []
    end.
Proof.
  destruct c as [ipd gps addr st err guard mounted]. simpl. intros -> He.
  destruct e as [| |[]|data|ex|[[la lo acc] ts]|error|[[text|]|ex]];
    try discriminate He; turn; try (repeat split; reflexivity).
  - unfold same_coords. cbn [latitude longitude].
    destruct (strict_eq (lat <$> guard) la && strict_eq (lng <$> guard) lo);
      repeat split; reflexivity.
  - destruct (truthy (Str text)); repeat split; reflexivity.
Qed.

Lemma run_resolved_pairs events : ∀ c,
  isMounted c = true →
  forallb (λ e, negb (is_Unmount e)) events = true →
  resolutions (run events c).2
  = resolved_pairs (lastResolvedCoords c) events.
Proof.
  induction events as [|e events IH]; intros c Hc Hev; [reflexivity|].
  simpl in Hev. apply andb_prop in Hev as [He Hev].
  apply negb_true_iff in He.
  destruct (dispatch_guard c e Hc He) as [Hm Hstep].
  rewrite run_cons. cbn [snd]. rewrite resolutions_app, (IH _ Hm Hev).
  destruct e as [| |g|data|ex|position|error|outcome];
    try discriminate He; cbn [resolved_pairs];
    try (destruct Hstep as [-> ->]; reflexivity).
  cbv zeta in Hstep |- *.
  destruct (strict_eq _ _ && strict_eq _ _);
    destruct Hstep as [-> ->]; reflexivity.
Qed.

Lemma same_coords_refl la lo acc ts :
  PrimFloat.eqb la la = true → PrimFloat.eqb lo lo = true →
  same_coords (Some (mkCoords la lo)) (mkGps la lo acc ts) = true.
Proof. intros Hla Hlo. unfold same_coords. simpl. rewrite Hla, Hlo. reflexivity. Qed.

(** C3, amended. On a mounted component the pairs for which resolution is
    started are those of the reference [resolved_pairs]: a fix is resolved
    unless its pair is, by [===] on both fields, the one of the latest
    attempt since the last load.  So the same coordinates (not NaN) passed
    twice in a row are resolved exactly once. *)
Theorem guard_skips_only_latest_pair c events la lo acc1 ts1 acc2 ts2 :
  isMounted c = true →
  (forallb (λ e, negb (is_Unmount e)) events = true →
   resolutions (run events c).2
   = resolved_pairs (lastResolvedCoords c) events)
  ∧ (PrimFloat.eqb la la = true → PrimFloat.eqb lo lo = true →
     same_coords (lastResolvedCoords c) (mkGps la lo acc1 ts1) = false →
     resolutions (run [fix_at la lo acc1 ts1; fix_at la lo acc2 ts2] c).2
     = [(la, lo)]).
Proof.
  intros Hc. split; [apply run_resolved_pairs, Hc|].
  intros Hla Hlo Hnew.
  rewrite run_resolved_pairs by (assumption || reflexivity).
  unfold fix_at, same_coords in *. cbn [latitude longitude] in Hnew.
  cbn [resolved_pairs Geolocation.coords Geolocation.latitude
       Geolocation.longitude].
  rewrite Hnew. cbn [fmap option_fmap option_map lat lng strict_eq].
  rewrite Hla, Hlo. reflexivity.
Qed.

Lemma dispatch_fix_unmounted c la lo acc ts :
  isMounted c = false → dispatch (fix_at la lo acc ts) c = (tt, c, []).
Proof.
  destruct c as [ipd gps addr st err guard mounted]. simpl. intros ->.
  reflexivity.
Qed.

Lemma run_within_cycle events : ∀ c,
  forallb within_cycle events = true →
  lastResolvedCoords (run events c).1 = lastResolvedCoords c
  ∧ resolutions (run events c).2 = [].
Proof.
  induction events as [|e events IH]; intros c Hev; [split; reflexivity|].
  simpl in Hev. apply andb_prop in Hev as [He Hev].
  rewrite run_cons. cbn [fst snd]. rewrite resolutions_app.
  destruct (IH (dispatch e c).1.2 Hev) as [-> ->].
  destruct c as [ipd gps addr st err guard mounted].
  destruct e as [| |g|data|ex|position|error|[[text|]|ex]];
    try discriminate He; destruct mounted; turn;
    try (split; reflexivity).
  all: destruct (truthy (Str text)); split; reflexivity.
Qed.

(** C9. The guard holds the pair as soon as the fix has been handled,
    before the grounding request settles; and whatever happens then within
    the cycle (the request failing or returning no text, IP answers,
    geolocation errors), the same coordinates arriving again start no
    resolution. *)
Theorem guard_records_attempt c la lo acc1 ts1 acc2 ts2 between :
  isMounted c = true →
  PrimFloat.eqb la la = true → PrimFloat.eqb lo lo = true →
  forallb within_cycle between = true →
  let attempted := (run [fix_at la lo acc1 ts1] c).1 in
  same_coords (lastResolvedCoords attempted) (mkGps la lo acc2 ts2) = true
  ∧ resolutions (run (between ++ [fix_at la lo acc2 ts2]) attempted).2 = [].
Proof.
  intros Hc Hla Hlo Hbetween attempted.
  assert (same_coords (lastResolvedCoords attempted) (mkGps la lo acc2 ts2)
          = true) as Hguard.
  { subst attempted. rewrite run_cons. cbn [run fst snd].
    rewrite dispatch_fix by assumption. cbv zeta.
    destruct (same_coords (lastResolvedCoords c) (mkGps la lo acc1 ts1))
      eqn:Hsame; cbn [fst snd lastResolvedCoords].
    - exact Hsame.
    - apply same_coords_refl; assumption. }
  split; [exact Hguard|].
  rewrite run_app. cbn [snd]. rewrite resolutions_app.
  destruct (run_within_cycle between attempted Hbetween) as [Hkeep ->].
  rewrite run_cons. cbn [run fst snd]. rewrite app_nil_r, app_nil_l.
  set (c1 := (run between attempted).1) in *.
  destruct (isMounted c1) eqn:Hm1.
  - rewrite dispatch_fix by assumption. cbv zeta. rewrite Hkeep, Hguard.
    reflexivity.
  - rewrite dispatch_fix_unmounted by assumption. reflexivity.
Qed.

(** C3 as stated fails: over three refreshes with the device back at the
    first place on the third, that pair is resolved twice. *)
Lemma same_pair_resolved_twice :
  resolutions (run Examples.refreshed_thrice initial).2
  = [ (31.2304, 121.4737); (39.9042, 116.4074); (31.2304, 121.4737) ]%float
  ∧ length (filter (λ pair, Examples.same_as_p pair)
                   (resolutions (run Examples.refreshed_thrice initial).2))
    = 2.
Proof. split; reflexivity. Qed.

(** ** The theorems at concrete inputs *)

Lemma no_state_write_after_teardown_witness :
  isMounted Examples.torn_down = false
  ∧ forallb is_completion Examples.late_completions = true
  ∧ (run Examples.late_completions Examples.torn_down).1 = Examples.torn_down
  ∧ filter is_state_write
           (run Examples.late_completions Examples.torn_down).2 = [].
Proof.
  split; [reflexivity|]. split; [reflexivity|].
  apply (no_state_write_after_teardown Examples.torn_down
           Examples.late_completions); reflexivity.
Defined.

Lemma positionError_sets_denied_witness :
  isMounted initial = true
  ∧ status (dispatch (PositionError
                        (Geolocation.mkPositionError
                           1 "User denied Geolocation")) initial).1.2
    = DENIED
  ∧ errorMsg (dispatch (PositionError
                          (Geolocation.mkPositionError
                             1 "User denied Geolocation")) initial).1.2
    = "请允许浏览器获取您的位置权限".
Proof.
  split; [reflexivity|].
  destruct (positionError_sets_denied
              initial 1 "User denied Geolocation" eq_refl)
    as (Hstatus & Hone & _).
  split; [exact Hstatus | exact (Hone eq_refl)].
Defined.

Lemma groundingSettled_always_success_witness :
  isMounted initial = true
  ∧ status (dispatch (GroundingSettled (Throw NetworkError)) initial).1.2
    = SUCCESS
  ∧ addressData (dispatch (GroundingSettled (Throw NetworkError)) initial).1.2
    = Some (mkAddress "地址解析超时或失败" (Some "")).
Proof.
  split; [reflexivity|].
  destruct (groundingSettled_always_success
              initial (Throw NetworkError) eq_refl)
    as (Hstatus & _ & _ & _ & _ & _ & Hthrown).
  split; [exact Hstatus | exact (Hthrown NetworkError eq_refl)].
Defined.

Lemma loadLocationData_frame_witness :
  isMounted Examples.on_display = true
  ∧ ipData (dispatch (Load true) Examples.on_display).1.2
    = Some Examples.sample_ip
  ∧ addressData (dispatch (Load true) Examples.on_display).1.2 = None
  ∧ errorMsg (dispatch (Load true) Examples.on_display).1.2 = "".
Proof.
  split; [reflexivity|].
  destruct (loadLocationData_frame Examples.on_display true)
    as ((Hip & _) & Hreset).
  destruct (Hreset eq_refl) as (Haddr & _ & _ & _ & Hmsg).
  split; [exact Hip|]. split; [exact Haddr | exact Hmsg].
Defined.

Lemma guard_skips_only_latest_pair_witness :
  isMounted initial = true
  ∧ PrimFloat.eqb 31.2304 31.2304 = true
  ∧ PrimFloat.eqb 121.4737 121.4737 = true
  ∧ same_coords (lastResolvedCoords initial) (mkGps 31.2304 121.4737 12 1000)
    = false
  ∧ forallb (λ e, negb (is_Unmount e)) Examples.refreshed_thrice = true
  ∧ resolutions (run Examples.refreshed_thrice initial).2
    = resolved_pairs None Examples.refreshed_thrice
  ∧ resolutions (run [Examples.fix_p1; Examples.fix_p2] initial).2
    = [ (31.2304, 121.4737) ]%float.
Proof.
  do 5 (split; [reflexivity|]).
  destruct (guard_skips_only_latest_pair
              initial Examples.refreshed_thrice
              31.2304 121.4737 12 1000 15 2000 eq_refl)
    as [Hreference Htwice].
  split; [exact (Hreference eq_refl)|].
  exact (Htwice eq_refl eq_refl eq_refl).
Defined.

Lemma guard_records_attempt_witness :
  isMounted initial = true
  ∧ forallb within_cycle Examples.failed_then_ip = true
  ∧ resolutions (run (Examples.failed_then_ip ++ [Examples.fix_p2])
                     (run [Examples.fix_p1] initial).1).2 = [].
Proof.
  do 2 (split; [reflexivity|]).
  exact (proj2 (guard_records_attempt
                  initial 31.2304 121.4737 12 1000 15 2000
                  Examples.failed_then_ip eq_refl eq_refl eq_refl eq_refl)).
Defined.

End AppFacts.

(* ===================================================================== *)
(** * The resolver against its reference *)
(* ===================================================================== *)

Module CascadeFacts.
Import Js IpService Cascade.

Lemma get_attribute data key :
  is_nullish data = false → get data key = Normal (attribute data key).
Proof. destruct data; simpl; intros; try reflexivity; discriminate. Qed.

Lemma get_nullish data key :
  is_nullish data = true → get data key = Throw TypeError.
Proof. destruct data; simpl; intros; try reflexivity; discriminate. Qed.

Section Run.
Variable net : string -> Network.

Lemma fetchWithTimeout_run resource bound rt :
  (bound < 2 ^ 31)%N →
  let out := fetchWithTimeout net resource (Some (mkInit (Some bound))) rt in
  out.1 = Settled (settled bound (net resource))
  ∧ now out.2 = (now rt + duration bound (net resource))%N
  ∧ console out.2 = console rt
  ∧ next_id out.2 = N.succ (next_id rt).
Proof.
  intros Hrange. cbv zeta.
  rewrite IpServiceFacts.fetchWithTimeout_unfold. cbv zeta.
  simpl default. rewrite (IpServiceFacts.timer_delay_in_range _ Hrange).
  unfold settled.
  destruct (net resource) as [after r|after|]; simpl duration.
  - destruct (decide (after < bound)%N).
    + rewrite decide_True by lia. simpl. repeat split; lia.
    + rewrite decide_False by lia. simpl. repeat split; lia.
  - destruct (decide (after < bound)%N).
    + rewrite decide_True by lia. simpl. repeat split; lia.
    + rewrite decide_False by lia. simpl. repeat split; lia.
  - simpl. repeat split; lia.
Qed.

Lemma settled_throw bound checks answer e :
  settled bound answer = Throw e → body bound checks answer = None.
Proof.
  unfold settled, body. destruct answer as [after r|after|]; try reflexivity.
  destruct (decide (after < bound)%N); [discriminate|reflexivity].
Qed.

Lemma settled_normal bound checks answer r :
  settled bound answer = Normal r →
  body bound checks answer
  = if checks && negb (ok r) then None else Some (json r).
Proof.
  unfold settled, body. intros H.
  destruct answer as [after r'|after|]; try discriminate;
    destruct (decide (after < bound)%N); try discriminate.
  injection H as ->. reflexivity.
Qed.

(** Unfolds the monad of the service. *)
Ltac run_monad :=
  repeat (unfold mbind, M_bind, bind, lift, throw, mret, M_ret, ret,
                 console_warn, await_json;
          cbn beta iota zeta delta [fst snd ok json negb andb]).

(** Runs the next request of the resolver and splits on its answer. *)
Ltac stage :=
  match goal with
  | |- context [fetchWithTimeout net ?u (Some (mkInit (Some ?b))) ?r] =>
      let Hc := fresh "Hc" in
      let Hn := fresh "Hn" in
      let Hi := fresh "Hi" in
      let Hl := fresh "Hl" in
      let c := fresh "c" in
      let rt' := fresh "rt" in
      let okf := fresh "okf" in
      let dt := fresh "dt" in
      let d := fresh "d" in
      let e := fresh "e" in
      let Hd := fresh "Hd" in
      destruct (fetchWithTimeout_run u b r eq_refl) as (Hc & Hn & Hl & Hi);
      destruct (fetchWithTimeout net u (Some (mkInit (Some b))) r)
        as [c rt'];
      cbn [fst snd now next_id console pending advance] in Hc, Hn, Hi, Hl;
      match goal with
      | |- context [body b ?checks (net u)] =>
          destruct c as [[[okf [dt [d|e]|]]|e]|];
          [ injection Hc as Hc; symmetry in Hc;
            rewrite (settled_normal b checks _ _ Hc);
            destruct okf;
            (destruct (is_nullish d) eqn:Hd; run_monad;
             [ rewrite ?(get_nullish d) by exact Hd
             | rewrite ?(get_attribute d) by exact Hd ])
          | injection Hc as Hc; symmetry in Hc;
            rewrite (settled_normal b checks _ _ Hc); destruct okf
          | injection Hc as Hc; symmetry in Hc;
            rewrite (settled_normal b checks _ _ Hc); destruct okf
          | injection Hc as Hc; symmetry in Hc;
            rewrite (settled_throw b checks _ _ Hc)
          | discriminate Hc ]
      end;
      run_monad;
      try match goal with
          | |- context [if truthy ?v then _ else _] =>
              let Ht := fresh "Ht" in
              destruct (truthy v) eqn:Ht; run_monad
          end
  end.

(** The whole run of the resolver against the reference. *)
Lemma fetchIpInfo_run rt :
  completes rt (outcome net) (elapsed net) (requests net) (warnings net)
            (fetchIpInfo net rt).
Proof.
  unfold fetchIpInfo, try_catch, outcome, elapsed, requests, warnings,
    decisive, usable, stalls, reading.
  fold dbip_url ipapi_url ipify_url.
  run_monad. stage.
  all: try stage.
  all: try stage.
  all: unfold completes;
       cbn [fst snd now next_id console andb negb advance].
  all: repeat match goal with
              | H : is_nullish _ = _ |- _ => try rewrite H; clear H
              end.
  all: repeat match goal with
              | H : console _ = _ |- _ => rewrite H; clear H
              end.
  all: unfold from_ipapi, or;
       repeat match goal with
              | H : truthy _ = _ |- _ => try rewrite H; clear H
              end.
  all: rewrite <- ?app_assoc, ?app_nil_r.
  all: repeat split; (reflexivity || lia).
Qed.

Lemma duration_le bound answer : (duration bound answer ≤ bound)%N.
Proof. destruct answer; simpl; lia. Qed.

Lemma decisive_usable bound checks answer data :
  usable bound checks answer = Some data →
  decisive bound checks answer = true.
Proof. unfold decisive. intros ->. reflexivity. Qed.

(** X1. Whatever the three providers do, the call ends as the reference
    says.  It settles with the normalisation of the first usable answer
    in the order db-ip, ipapi.co, ipify, and with the terminal error when
    every attempt fails.  An answer is usable when it comes before its
    bound (5000, 5000 and 3000 ms), its status is ok (first two providers
    only) and its body is read to the end and parses to something other
    than null.  When an attempt gets as far as a body that never comes to
    its end, the call stays pending and no later provider is tried. *)
Theorem fetchIpInfo_first_usable rt :
  (fetchIpInfo net rt).1 = outcome net.
Proof. apply fetchIpInfo_run. Qed.

(** X2. The call throws if and only if none of the three attempts gives
    a usable answer or is left waiting for a body; for ipify the status
    does not count. *)
Theorem fetchIpInfo_throws_iff rt :
  (∃ e, (fetchIpInfo net rt).1 = Settled (Throw e))
  ↔ decisive 5000 true (net dbip_url) = false
    ∧ decisive 5000 true (net ipapi_url) = false
    ∧ decisive 3000 false (net ipify_url) = false.
Proof.
  destruct (fetchIpInfo_run rt) as [-> _]. unfold outcome, decisive.
  destruct (usable 5000 true (net dbip_url));
    [|destruct (stalls 5000 true (net dbip_url));
      [|destruct (usable 5000 true (net ipapi_url));
        [|destruct (stalls 5000 true (net ipapi_url));
          [|destruct (usable 3000 false (net ipify_url));
            [|destruct (stalls 3000 false (net ipify_url))]]]]].
  all: split; [intros [e He]; try discriminate He; auto
              | intros (H1 & H2 & H3); try discriminate; eauto].
Qed.

(** X3. The call stays pending exactly when an attempt that is reached is
    left waiting for a body.  Otherwise it settles after the waits for
    the headers of the attempts made, which add up to 13 seconds at
    most, and the time spent reading their bodies, which nothing
    bounds. *)
Theorem fetchIpInfo_settles_within rt :
  ((fetchIpInfo net rt).1 = Pending
   ↔ stalls 5000 true (net dbip_url) = true
     ∨ decisive 5000 true (net dbip_url) = false
       ∧ (stalls 5000 true (net ipapi_url) = true
          ∨ decisive 5000 true (net ipapi_url) = false
            ∧ stalls 3000 false (net ipify_url) = true))
  ∧ now (fetchIpInfo net rt).2 = (now rt + elapsed net)%N
  ∧ (elapsed net ≤ 13000 + reading 5000 true (net dbip_url)
                 + reading 5000 true (net ipapi_url)
                 + reading 3000 false (net ipify_url))%N.
Proof.
  destruct (fetchIpInfo_run rt) as (-> & Hnow & _).
  split; [|split; [exact Hnow|]].
  - unfold outcome, decisive, stalls, usable.
    destruct (body 5000 true (net dbip_url)) as [[? [d1|?]|]|];
      try destruct (is_nullish d1);
      destruct (body 5000 true (net ipapi_url)) as [[? [d2|?]|]|];
      try destruct (is_nullish d2);
      destruct (body 3000 false (net ipify_url)) as [[? [d3|?]|]|];
      try destruct (is_nullish d3).
    all: split;
      [ intros H; try discriminate H; auto
      | intros [H|[H [H'|[H' H'']]]]; try discriminate; reflexivity ].
  - unfold elapsed.
    pose proof (duration_le 5000 (net dbip_url)).
    pose proof (duration_le 5000 (net ipapi_url)).
    pose proof (duration_le 3000 (net ipify_url)).
    destruct (decisive 5000 true (net dbip_url));
      [|destruct (decisive 5000 true (net ipapi_url))]; lia.
Qed.

(** X4. The call makes one to three requests, and writes one warning to
    the console when the first attempt fails and nothing otherwise: the
    failures of the second and third attempts are not logged. *)
Theorem fetchIpInfo_warns_once rt :
  console (fetchIpInfo net rt).2
  = (console rt
     ++ if decisive 5000 true (net dbip_url)
        then []
        else ["Primary IP fetch failed, trying fallback..."])%list
  ∧ (next_id rt < next_id (fetchIpInfo net rt).2 ≤ next_id rt + 3)%N.
Proof.
  destruct (fetchIpInfo_run rt) as (_ & _ & Hreq & Hlog).
  rewrite Hlog, Hreq. unfold warnings, requests.
  destruct (decisive 5000 true (net dbip_url));
    [|destruct (decisive 5000 true (net ipapi_url))];
    split; (reflexivity || lia).
Qed.




End Run.

(** X5. When db-ip gives a usable answer the other providers play no
    part: the record is the one built from that answer whatever they
    would do, a single request is made and nothing is logged. *)
Theorem fetchIpInfo_primary_decides net1 net2 rt data :
  usable 5000 true (net1 dbip_url) = Some data →
  net2 dbip_url = net1 dbip_url →
  (fetchIpInfo net1 rt).1 = Settled (Normal (from_dbip data))
  ∧ (fetchIpInfo net2 rt).1 = Settled (Normal (from_dbip data))
  ∧ console (fetchIpInfo net1 rt).2 = console rt
  ∧ next_id (fetchIpInfo net1 rt).2 = N.succ (next_id rt).
Proof.
  intros Husable Hsame.
  destruct (fetchIpInfo_run net1 rt) as (Hres & _ & Hreq & Hlog).
  destruct (fetchIpInfo_run net2 rt) as (Hres2 & _).
  rewrite Hres, Hreq, Hlog, Hres2.
  unfold outcome, requests, warnings.
  rewrite Hsame, Husable, (decisive_usable _ _ _ _ Husable).
  rewrite app_nil_r. repeat split; lia.
Qed.


(** The call left waiting: db-ip answers 200 in time with a body that
    never comes to an end, and no other provider is tried. *)
Lemma fetchIpInfo_stalled_body_pending :
  fetchIpInfo Samples.dbip_stalls Examples.rt0
  = (Pending, mkRuntime 80 1 [] []).
Proof. reflexivity. Qed.

(** ** The theorems at concrete inputs *)

Lemma fetchIpInfo_primary_decides_witness :
  usable 5000 true (Samples.only_dbip dbip_url)
  = Some (Obj Examples.shanghai)
  ∧ Examples.dbip_city dbip_url = Samples.only_dbip dbip_url
  ∧ (fetchIpInfo Samples.only_dbip Examples.rt0).1
    = (fetchIpInfo Examples.dbip_city Examples.rt0).1.
Proof.
  do 2 (split; [reflexivity|]).
  destruct (fetchIpInfo_primary_decides
              Samples.only_dbip Examples.dbip_city Examples.rt0
              (Obj Examples.shanghai) eq_refl eq_refl)
    as (H1 & H2 & _).
  rewrite H1, H2. reflexivity.
Defined.




End CascadeFacts.

(* ===================================================================== *)
(** * Properties of the resolver without timeouts *)
(* ===================================================================== *)

Module LegacyFacts.
Import Js IpService.

(** Unfolds the monad of the resolver without timeouts. *)
Ltac run_legacy :=
  repeat (unfold mbind, Legacy.M_bind, Legacy.bind, Legacy.lift, Legacy.throw,
                 mret, Legacy.M_ret, Legacy.ret, Legacy.console_warn,
                 Legacy.await_fetch, Legacy.await_json;
          cbn beta iota zeta delta [fst snd ok json negb andb fmap option_fmap
                                    option_map Legacy.settles]).

(** Splits on the answer to the next request. *)
Ltac legacy_stage net :=
  match goal with
  | |- context [net ?u] =>
      let okf := fresh "okf" in
      let d := fresh "d" in
      let Hd := fresh "Hd" in
      destruct (net u) as [? [okf [? [d|?]|]]|?|]; run_legacy;
      try destruct okf; run_legacy;
      try (destruct (is_nullish d) eqn:Hd; run_legacy;
           [ rewrite ?(CascadeFacts.get_nullish d) by exact Hd
           | rewrite ?(CascadeFacts.get_attribute d) by exact Hd ]; run_legacy);
      try match goal with
          | |- context [if truthy ?v then _ else _] =>
              let Ht := fresh "Ht" in
              destruct (truthy v) eqn:Ht; run_legacy
          end
  end.

(** The whole run of the resolver without timeouts against its
    reference. *)
Lemma legacy_run net rt :
  fst <$> Legacy.fetchIpInfo net rt = Legacy.outcome net.
Proof.
  unfold Legacy.fetchIpInfo, Legacy.try_catch, Legacy.outcome, Legacy.usable,
    Legacy.stalls, Legacy.body.
  fold Cascade.dbip_url Cascade.ipapi_url.
  run_legacy. legacy_stage net.
  all: try legacy_stage net.
  all: unfold Legacy.from_ipapi, Legacy.from_dbip, or;
       repeat match goal with
              | H : truthy _ = _ |- _ => progress (rewrite H; cbn beta iota)
              end.
  all: reflexivity.
Qed.

(** X8. The resolver without timeouts completes, when it does, with the
    normalisation of the first usable answer in the order ipapi.co,
    db-ip, only ipapi.co being rejected on its status, and with the
    terminal error when both fail. *)
Theorem legacy_first_usable net rt :
  fst <$> Legacy.fetchIpInfo net rt = Legacy.outcome net.
Proof. apply legacy_run. Qed.

(** X9. The resolver without timeouts never settles exactly when an
    attempt that is reached never hears from the network or is left
    waiting for a body: ipapi.co never answers or its body never comes
    to an end, or ipapi.co gives nothing usable and the same happens
    with db-ip. *)
Theorem legacy_pending_iff net rt :
  Legacy.fetchIpInfo net rt = None
  ↔ net Cascade.ipapi_url = Hangs
    ∨ Legacy.stalls true (net Cascade.ipapi_url) = true
    ∨ (Legacy.usable true (net Cascade.ipapi_url) = None
       ∧ Legacy.stalls true (net Cascade.ipapi_url) = false
       ∧ (net Cascade.dbip_url = Hangs
          ∨ Legacy.stalls false (net Cascade.dbip_url) = true)).
Proof.
  rewrite <- (fmap_None fst), legacy_run.
  unfold Legacy.outcome, Legacy.usable, Legacy.stalls, Legacy.body.
  destruct (net Cascade.ipapi_url) as [a1 [[] [dt1 [d1|e1]|]]|a1|];
    destruct (net Cascade.dbip_url) as [a2 [[] [dt2 [d2|e2]|]]|a2|];
    cbn [Legacy.settles negb andb ok json];
    repeat match goal with
           | |- context [is_nullish ?d] => destruct (is_nullish d)
           end.
  all: split;
    [ intros H; try discriminate H; auto 10
    | intros [H|[H|(H1 & H2 & [H|H])]]; try discriminate; reflexivity ].
Qed.

(** X10. On a usable answer of ipapi.co the resolver without timeouts
    returns a record none of whose fields is [undefined] or [null]; its
    [org] is the payload's [org] when that is truthy, else its [asn] when
    that is truthy, else "未知运营商". *)
Theorem legacy_primary_defaults net rt data :
  Legacy.usable true (net Cascade.ipapi_url) = Some data →
  ∃ info rt',
    Legacy.fetchIpInfo net rt = Some (Normal info, rt')
    ∧ (is_nullish (ip info) = false ∧ is_nullish (city info) = false
       ∧ is_nullish (region info) = false
       ∧ is_nullish (country info) = false
       ∧ is_nullish (org info) = false)
    ∧ (truthy (Cascade.attribute data "org") = true →
       org info = Cascade.attribute data "org")
    ∧ (truthy (Cascade.attribute data "org") = false →
       truthy (Cascade.attribute data "asn") = true →
       org info = Cascade.attribute data "asn")
    ∧ (truthy (Cascade.attribute data "org") = false →
       truthy (Cascade.attribute data "asn") = false →
       org info = Str "未知运营商").
Proof.
  intros Husable.
  pose proof (legacy_run net rt) as Hrun.
  unfold Legacy.outcome in Hrun. rewrite Husable in Hrun.
  assert (Legacy.settles (net Cascade.ipapi_url) = true) as Hs
    by (destruct (net Cascade.ipapi_url); try discriminate; reflexivity).
  rewrite Hs in Hrun. cbn [negb] in Hrun.
  destruct (Legacy.fetchIpInfo net rt) as [[c rt']|]; [|discriminate].
  injection Hrun as ->.
  exists (Legacy.from_ipapi data), rt'. split; [reflexivity|].
  unfold Legacy.from_ipapi. cbn [ip city region country org].
  split; [repeat split; apply IpServiceFacts.or_string_not_nullish|].
  unfold or.
  repeat split; intros H1; try intros H2; rewrite ?H1, ?H2; cbn beta iota;
    rewrite ?H1, ?H2; reflexivity.
Qed.

(** ** The theorem at a concrete input *)

Lemma legacy_primary_defaults_witness :
  Legacy.usable true (Samples.ipapi_asn Cascade.ipapi_url)
  = Some (Obj Samples.asn_only)
  ∧ ∃ info rt',
      Legacy.fetchIpInfo Samples.ipapi_asn Examples.rt0
      = Some (Normal info, rt')
      ∧ org info = Str "AS64500".
Proof.
  split; [reflexivity|].
  destruct (legacy_primary_defaults
              Samples.ipapi_asn Examples.rt0 (Obj Samples.asn_only) eq_refl)
    as (info & rt' & Hrun & _ & _ & Hasn & _).
  exists info, rt'. split; [exact Hrun | exact (Hasn eq_refl eq_refl)].
Defined.

End LegacyFacts.

(* ===================================================================== *)
(** * More properties of the location orchestrator and of the page *)
(* ===================================================================== *)

Module OrchestratorFacts.
Import Js App AppTactics Page Observe.

(** What one turn can start by way of address resolution. *)
Lemma dispatch_resolutions c e :
  resolutions (dispatch e c).2 = []
  ∨ ∃ position,
      e = PositionSuccess position
      ∧ resolutions (dispatch e c).2
        = [(Geolocation.latitude (Geolocation.coords position),
            Geolocation.longitude (Geolocation.coords position))].
Proof.
  destruct c as [ipd gps addr st err guard mounted].
  destruct e as [| |[]|data|ex|[[la lo acc] ts]|error|[[text|]|ex]];
    destruct mounted; turn; auto.
  - destruct (same_coords guard _); [left; reflexivity|].
    right. eexists; split; reflexivity.
  - destruct (truthy (Str text)); left; reflexivity.
Qed.

(** X11. Address resolution is only ever started for delivered fixes: the
    pairs resolved in a run are, in order, pairs of fixes among its
    events, each fix accounting for one resolution at most. *)
Theorem resolutions_follow_fixes events : ∀ c,
  resolutions (run events c).2 `sublist_of` fix_pairs events.
Proof.
  induction events as [|e events IH]; intros c; [reflexivity|].
  rewrite AppFacts.run_cons. cbn [snd]. rewrite AppFacts.resolutions_app.
  specialize (IH (dispatch e c).1.2).
  destruct (dispatch_resolutions c e) as [->|(position & -> & ->)].
  - simpl. unfold fix_pairs. simpl.
    destruct e; try exact IH; apply sublist_cons, IH.
  - unfold fix_pairs. simpl. apply sublist_skip, IH.
Qed.

(** X12. On the unmounted component everything but a mount is without
    effect: completions and refreshes alike change nothing, call no
    setter and start no operation; only the console is written. *)
Theorem nothing_starts_after_teardown c events :
  isMounted c = false →
  forallb (λ e, negb (is_Mount e)) events = true →
  (run events c).1 = c
  ∧ Forall (λ op, is_console op = true) (run events c).2.
Proof.
  intros Hc. induction events as [|e events IH]; intros Hev.
  - split; [reflexivity|constructor].
  - simpl in Hev. apply andb_prop in Hev as [He Hev].
    apply negb_true_iff in He.
    assert ((dispatch e c).1.2 = c
            ∧ Forall (λ op, is_console op = true) (dispatch e c).2)
      as [Hsame Hops].
    { destruct c as [ipd gps addr st err guard mounted]. simpl in Hc. subst.
      destruct e as [| |g|data|ex|position|error|[[text|]|ex]];
        try discriminate He; turn; split; try reflexivity;
        repeat constructor. }
    rewrite AppFacts.run_cons, Hsame. cbn [fst snd].
    destruct (IH Hev) as [IH1 IH2].
    split; [exact IH1|]. apply Forall_app. split; assumption.
Qed.

Lemma dispatch_keeps_records c e :
  (ipData c ≠ None → ipData (dispatch e c).1.2 ≠ None)
  ∧ (gpsData c ≠ None → gpsData (dispatch e c).1.2 ≠ None).
Proof.
  destruct c as [ipd gps addr st err guard mounted].
  destruct e as [| |[]|data|ex|[[la lo acc] ts]|error|[[text|]|ex]];
    destruct mounted; turn;
    try (destruct (same_coords guard _));
    try (destruct (truthy (Str text)));
    cbn [fst snd ipData gpsData]; split; intros H; try exact H; discriminate.
Qed.

(** X13. Nothing ever sets [ipData] or [gpsData] back to null: a record
    that is there stays, or is replaced by a newer one, through refreshes
    and failures alike. *)
Theorem records_never_cleared events : ∀ c,
  (ipData c ≠ None → ipData (run events c).1 ≠ None)
  ∧ (gpsData c ≠ None → gpsData (run events c).1 ≠ None).
Proof.
  induction events as [|e events IH]; intros c; [split; auto|].
  rewrite AppFacts.run_cons. cbn [fst].
  destruct (dispatch_keeps_records c e) as [H1 H2].
  destruct (IH (dispatch e c).1.2) as [IH1 IH2]. split; auto.
Qed.

(** X14. The status changes only on the mounted component, and only so:
    a load makes it LOADING, or ERROR without the geolocation capability;
    a geolocation failure makes it DENIED; the settling of the grounding
    call makes it SUCCESS.  IP answers and fixes never change it. *)
Theorem status_transitions c e :
  status (dispatch e c).1.2 = status c
  ∨ isMounted c = true
    ∧ match e with
      | Load geolocation =>
          status (dispatch e c).1.2 = if geolocation then LOADING else ERROR
      | PositionError _ => status (dispatch e c).1.2 = DENIED
      | GroundingSettled _ => status (dispatch e c).1.2 = SUCCESS
      | _ => False
      end.
Proof.
  destruct c as [ipd gps addr st err guard mounted].
  destruct e as [| |[]|data|ex|[[la lo acc] ts]|error|[[text|]|ex]];
    destruct mounted; turn;
    try (destruct (same_coords guard _));
    try (destruct (truthy (Str text)));
    cbn [fst snd status]; auto.
Qed.

(** X15. Each completion writes to its own cells only and starts no
    operation, but for a fix, which may start the address resolution. *)
Theorem completions_write_their_own_cells c e :
  let c' := (dispatch e c).1.2 in
  match e with
  | IpResolved _ | IpRejected _ =>
      gpsData c' = gpsData c ∧ addressData c' = addressData c
      ∧ status c' = status c ∧ errorMsg c' = errorMsg c
      ∧ lastResolvedCoords c' = lastResolvedCoords c
      ∧ filter is_call (dispatch e c).2 = []
  | PositionSuccess _ =>
      ipData c' = ipData c ∧ addressData c' = addressData c
      ∧ status c' = status c ∧ errorMsg c' = errorMsg c
  | PositionError _ =>
      ipData c' = ipData c ∧ gpsData c' = gpsData c
      ∧ addressData c' = addressData c
      ∧ lastResolvedCoords c' = lastResolvedCoords c
      ∧ filter is_call (dispatch e c).2 = []
  | GroundingSettled _ =>
      ipData c' = ipData c ∧ gpsData c' = gpsData c
      ∧ errorMsg c' = errorMsg c
      ∧ lastResolvedCoords c' = lastResolvedCoords c
      ∧ filter is_call (dispatch e c).2 = []
  | Mount | Unmount | Load _ => True
  end.
Proof.
  destruct c as [ipd gps addr st err guard mounted].
  destruct e as [| |[]|data|ex|[[la lo acc] ts]|error|[[text|]|ex]];
    destruct mounted; turn;
    try (destruct (same_coords guard _));
    try (destruct (truthy (Str text)));
    cbn [fst snd ipData gpsData addressData status errorMsg
         lastResolvedCoords];
    repeat split.
Qed.

(** X16. Loading twice leaves the component as loading once does.  Each
    load of the mounted component starts the IP resolution and then,
    when the capability is there, asks for one fix with high accuracy, a
    15000 ms timeout and no cached position. *)
Theorem load_twice_is_load_once c geolocation :
  (dispatch (Load geolocation) (dispatch (Load geolocation) c).1.2).1.2
  = (dispatch (Load geolocation) c).1.2
  ∧ filter is_call (dispatch (Load geolocation) c).2
    = (if isMounted c
       then CallFetchIpInfo
            :: (if geolocation then [CallGetCurrentPosition true 15000 0]
                else [])
       else []).
Proof.
  destruct c as [ipd gps addr st err guard mounted].
  destruct mounted, geolocation; turn; split; reflexivity.
Qed.

Lemma keeps_loading_status c e :
  keeps_loading e = true → status (dispatch e c).1.2 = status c.
Proof.
  intros He. destruct c as [ipd gps addr st err guard mounted].
  destruct e as [| |g|data|ex|[[la lo acc] ts]|error|outcome];
    try discriminate He; destruct mounted; turn;
    try (destruct (same_coords guard _)); reflexivity.
Qed.

(** X17. After a load, IP answers and fixes, however many, leave the
    status at LOADING: the refresh button stays disabled and the address
    card shows its skeleton until the geolocation fails or the grounding
    call settles. *)
Theorem refresh_locked_until_cycle_ends c events :
  isMounted c = true →
  forallb keeps_loading events = true →
  let c' := (run (Load true :: events) c).1 in
  status c' = LOADING
  ∧ refreshDisabled (render c') = true
  ∧ addressCard (render c') = Skeleton.
Proof.
  intros Hc Hev c'.
  assert (status c' = LOADING) as Hst.
  { subst c'. rewrite AppFacts.run_cons. cbn [fst].
    assert (status (dispatch (Load true) c).1.2 = LOADING) as H0
      by (destruct c as [ipd gps addr st err guard mounted];
          simpl in Hc; subst; reflexivity).
    revert H0. generalize ((dispatch (Load true) c).1.2). clear Hc c.
    induction events as [|e events IH]; intros c H0; [exact H0|].
    simpl in Hev. apply andb_prop in Hev as [He Hev].
    rewrite AppFacts.run_cons. cbn [fst]. apply IH; [exact Hev|].
    rewrite (keeps_loading_status c e He). exact H0. }
  unfold render. cbn [refreshDisabled addressCard]. rewrite Hst.
  repeat split.
Qed.

(** X18. After a refresh that ends in a geolocation failure, whatever
    its code, the address card reads "无法获取位置权限", the banner shows the
    message chosen for the code unless it is empty, the coordinate line
    still shows the fix of the cycle before, and the refresh button is
    enabled. *)
Theorem denied_view c error :
  isMounted c = true →
  let c' := (run [Load true; PositionError error] c).1 in
  addressCard (render c') = Hint "无法获取位置权限"
  ∧ errorBanner (render c')
    = (if truthy (Str (denied_message error))
       then Some (denied_message error) else None)
  ∧ coordinates (render c') = coordinates (render c)
  ∧ refreshDisabled (render c') = false.
Proof.
  destruct c as [ipd gps addr st err guard mounted], error as [code message].
  simpl isMounted. intros ->. cbv zeta.
  unfold run. turn. unfold render, denied_message.
  cbn [fst snd status addressData errorMsg gpsData is_LOADING is_DENIED
       Geolocation.code Geolocation.message addressCard errorBanner
       coordinates refreshDisabled].
  repeat split.
Qed.

(** X19. Once the grounding call has settled on the mounted component
    the address card shows an address text, the success dot is lit and
    the refresh button is enabled; the error banner and the coordinate
    line are as they were. *)
Theorem settled_view c outcome :
  isMounted c = true →
  let c' := (dispatch (GroundingSettled outcome) c).1.2 in
  (∃ text, addressCard (render c') = Address text)
  ∧ successDot (render c') = true
  ∧ refreshDisabled (render c') = false
  ∧ errorBanner (render c') = errorBanner (render c)
  ∧ coordinates (render c') = coordinates (render c).
Proof.
  destruct c as [ipd gps addr st err guard mounted].
  simpl isMounted. intros ->. cbv zeta.
  destruct outcome as [[text|]|ex]; turn;
    try (destruct (truthy (Str text)));
    unfold render;
    cbn [fst snd status addressData errorMsg gpsData is_LOADING is_SUCCESS
         addressCard errorBanner successDot coordinates refreshDisabled
         formattedAddress];
    repeat split; eauto.
Qed.

(** X20. Without the geolocation capability a load still starts the IP
    resolution and nothing else, and the page shows the capability
    message in the banner, "位置获取异常" in the address card and an enabled
    refresh button. *)
Theorem no_geolocation_view c :
  isMounted c = true →
  let out := dispatch (Load false) c in
  status out.1.2 = ERROR
  ∧ filter is_call out.2 = [CallFetchIpInfo]
  ∧ errorBanner (render out.1.2) = Some "您的浏览器不支持定位功能"
  ∧ addressCard (render out.1.2) = Hint "位置获取异常"
  ∧ refreshDisabled (render out.1.2) = false.
Proof.
  destruct c as [ipd gps addr st err guard mounted].
  simpl isMounted. intros ->. cbv zeta. turn. repeat split.
Qed.

(** ** The theorems at concrete inputs *)

Lemma nothing_starts_after_teardown_witness :
  isMounted Examples.torn_down = false
  ∧ forallb (λ e, negb (is_Mount e)) Samples.after_teardown = true
  ∧ (run Samples.after_teardown Examples.torn_down).1 = Examples.torn_down.
Proof.
  do 2 (split; [reflexivity|]).
  exact (proj1 (nothing_starts_after_teardown
                  Examples.torn_down Samples.after_teardown
                  eq_refl eq_refl)).
Defined.

Lemma records_never_cleared_witness :
  ipData Examples.on_display ≠ None
  ∧ ipData (run Examples.refreshed_thrice Examples.on_display).1 ≠ None.
Proof.
  assert (ipData Examples.on_display ≠ None) as Hshown by discriminate.
  split; [exact Hshown|].
  exact (proj1 (records_never_cleared Examples.refreshed_thrice
                  Examples.on_display) Hshown).
Defined.

Lemma refresh_locked_until_cycle_ends_witness :
  isMounted initial = true
  ∧ forallb keeps_loading Samples.waiting = true
  ∧ refreshDisabled (render (run (Load true :: Samples.waiting) initial).1)
    = true.
Proof.
  do 2 (split; [reflexivity|]).
  destruct (refresh_locked_until_cycle_ends initial Samples.waiting
              eq_refl eq_refl) as (_ & Hlocked & _).
  exact Hlocked.
Defined.

Lemma denied_view_witness :
  isMounted Examples.on_display = true
  ∧ addressCard
      (render (run [Load true; PositionError Samples.timed_out]
                   Examples.on_display).1)
    = Hint "无法获取位置权限"
  ∧ coordinates
      (render (run [Load true; PositionError Samples.timed_out]
                   Examples.on_display).1)
    = Some (31.2304, 121.4737)%float.
Proof.
  split; [reflexivity|].
  destruct (denied_view Examples.on_display Samples.timed_out eq_refl)
    as (Hcard & _ & Hcoords & _).
  split; [exact Hcard|]. rewrite Hcoords. reflexivity.
Defined.

Lemma settled_view_witness :
  isMounted Examples.on_display = true
  ∧ successDot
      (render (dispatch (GroundingSettled (Throw NetworkError))
                        Examples.on_display).1.2) = true
  ∧ errorBanner
      (render (dispatch (GroundingSettled (Throw NetworkError))
                        Examples.on_display).1.2) = Some "定位请求超时".
Proof.
  split; [reflexivity|].
  destruct (settled_view Examples.on_display (Throw NetworkError) eq_refl)
    as (_ & Hdot & _ & Hbanner & _).
  split; [exact Hdot|]. rewrite Hbanner. reflexivity.
Defined.

Lemma no_geolocation_view_witness :
  isMounted initial = true
  ∧ filter is_call (dispatch (Load false) initial).2 = [CallFetchIpInfo]
  ∧ addressCard (render (dispatch (Load false) initial).1.2)
    = Hint "位置获取异常".
Proof.
  split; [reflexivity|].
  destruct (no_geolocation_view initial eq_refl)
    as (_ & Hcalls & _ & Hcard & _).
  split; [exact Hcalls | exact Hcard].
Defined.

End OrchestratorFacts.
